(** * crLoadCSVData: the CSV-to-MongoDB loader of [main.py]

    A shallow embedding of [CSVToMongoDBLoader] and the properties of its
    ingestion pipeline: file discovery, row normalisation, batched insertion
    with tolerated partial failures, index provisioning and the connection
    life cycle.

    Python values are an inductive type, floats are IEEE-754 binary64 values
    ([spec_float] with [prec = 53], [emax = 1024]), dictionaries are finite
    maps keyed by strings, exceptions are values of an error monad, and the
    collaborators the loader calls (the file system, pandas' CSV reader, the
    clock and the MongoDB driver) are a record of operations over an abstract
    world. *)

From Stdlib Require Import ZArith Lia List Ascii String Bool.
From Stdlib Require Import Floats.SpecFloat.
From stdpp Require Import base option list gmap strings.

Import ListNotations.
Local Open Scope string_scope.

(** ** Exceptions *)

(** One entry of [BulkWriteError.details['writeErrors']]. *)
Record write_error := { we_index : nat; we_code : Z }.

(** [BulkWriteError.details]: the driver always fills in [writeErrors]. *)
Record bulk_details := { writeErrors : list write_error; nInserted : Z }.

(** The exception classes that matter to the loader's [except] clauses.
    [KeyboardInterrupt] and [SystemExit] derive from [BaseException] only,
    everything else from [Exception]. *)
Inductive exn :=
| ValueError
| TypeError
| OverflowError
| KeyError
| OSError
| RuntimeError
| ConnectionFailure
| BulkWriteError (details : bulk_details)
| OperationFailure
| AttributeError
| KeyboardInterrupt
| SystemExit.

(** [except Exception] *)
Definition is_Exception (e : exn) : bool :=
  match e with
  | KeyboardInterrupt | SystemExit => false
  | _ => true
  end.

(** [except ConnectionFailure] *)
Definition is_ConnectionFailure (e : exn) : bool :=
  match e with
  | ConnectionFailure => true
  | _ => false
  end.

(** [except BulkWriteError] *)
Definition is_BulkWriteError (e : exn) : bool :=
  match e with
  | BulkWriteError _ => true
  | _ => false
  end.

(** [except (ValueError, TypeError)] *)
Definition is_ValueError_or_TypeError (e : exn) : bool :=
  match e with
  | ValueError | TypeError => true
  | _ => false
  end.

(** The outcome of evaluating a Python expression. *)
Inductive result (A : Type) :=
| Ok (a : A)
| Raise (e : exn).
Arguments Ok {A} a.
Arguments Raise {A} e.

Definition is_Ok {A} (r : result A) : bool :=
  match r with Ok _ => true | Raise _ => false end.

Definition rbind {A B} (r : result A) (k : A -> result B) : result B :=
  match r with
  | Ok a => k a
  | Raise e => Raise e
  end.

(** [try: body  except <classes>: handler] on pure code. *)
Definition rtry {A} (body : result A) (classes : exn -> bool)
    (handler : exn -> result A) : result A :=
  match body with
  | Ok a => Ok a
  | Raise e => if classes e then handler e else Raise e
  end.

Fixpoint rfold {A B} (f : A -> B -> result A) (l : list B) (a : A) : result A :=
  match l with
  | [] => Ok a
  | b :: l' => rbind (f a b) (rfold f l')
  end.

Fixpoint rmap {A B} (f : A -> result B) (l : list A) : result (list B) :=
  match l with
  | [] => Ok []
  | a :: l' => rbind (f a) (fun b => rbind (rmap f l') (fun bs => Ok (b :: bs)))
  end.

(** ** Python scalars *)

Module Py.

(** binary64 *)
Definition prec : Z := 53.
Definition emax : Z := 1024.

Definition nan : spec_float := S754_nan.
Definition inf : spec_float := S754_infinity false.
Definition neg_inf : spec_float := S754_infinity true.

(** The scalars a parsed table holds: strings, numbers, timestamps, and the
    absence markers [None], [NaN] (a float) and [NaT]. *)
Inductive value :=
| VNone
| VNaT
| VBool (b : bool)
| VInt (z : Z)
| VFloat (f : spec_float)
| VStr (s : string)
| VTimestamp (t : Z).

(** [pd.notna] on a scalar. *)
Definition pd_notna (v : value) : bool :=
  match v with
  | VNone | VNaT | VFloat S754_nan => false
  | _ => true
  end.

(** [isinstance(v, float)] *)
Definition is_float (v : value) : bool :=
  match v with VFloat _ => true | _ => false end.

(** [math.isinf] *)
Definition isinf (f : spec_float) : bool :=
  match f with S754_infinity _ => true | _ => false end.

(** [math.isnan] *)
Definition isnan (f : spec_float) : bool :=
  match f with S754_nan => true | _ => false end.

(** *** Text of numbers

    A [str] is held as its UTF-8 bytes. [float] and [int] first bring a
    text that is not ASCII to ASCII: a Unicode space becomes a blank and a
    Unicode decimal digit its ASCII digit. What they read then follows the
    ASCII rules of the C library. The tables are those of Unicode 14.0, the
    version CPython 3.11 carries. *)

Definition code (c : ascii) : nat := nat_of_ascii c.

Definition byte (c : ascii) : N := N_of_ascii c.

(** The payload of a continuation byte [10xxxxxx]. *)
Definition continuation (c : ascii) : option N :=
  let b := byte c in
  if ((128 <=? b) && (b <? 192))%N then Some (b - 128)%N else None.

(** The code points of a text. A byte that starts no well-formed sequence
    (no [str] is encoded so) is read as U+FFFD. *)
Fixpoint code_points (cs : list ascii) : list N :=
  match cs with
  | [] => []
  | c1 :: cs1 =>
      let b1 := byte c1 in
      if (b1 <? 128)%N then b1 :: code_points cs1
      else if ((194 <=? b1) && (b1 <? 224))%N then
        match cs1 with
        | c2 :: cs2 =>
            match continuation c2 with
            | Some x2 => ((b1 - 192) * 64 + x2)%N :: code_points cs2
            | None => 65533%N :: code_points cs1
            end
        | [] => [65533%N]
        end
      else if ((224 <=? b1) && (b1 <? 240))%N then
        match cs1 with
        | c2 :: c3 :: cs3 =>
            match continuation c2, continuation c3 with
            | Some x2, Some x3 =>
                let cp := ((b1 - 224) * 4096 + x2 * 64 + x3)%N in
                if (2048 <=? cp)%N then cp :: code_points cs3
                else 65533%N :: code_points cs1
            | _, _ => 65533%N :: code_points cs1
            end
        | _ => 65533%N :: code_points cs1
        end
      else if ((240 <=? b1) && (b1 <? 245))%N then
        match cs1 with
        | c2 :: c3 :: c4 :: cs4 =>
            match continuation c2, continuation c3, continuation c4 with
            | Some x2, Some x3, Some x4 =>
                let cp := ((b1 - 240) * 262144 + x2 * 4096 + x3 * 64 + x4)%N in
                if ((65536 <=? cp) && (cp <=? 1114111))%N then cp :: code_points cs4
                else 65533%N :: code_points cs1
            | _, _, _ => 65533%N :: code_points cs1
            end
        | _ => 65533%N :: code_points cs1
        end
      else 65533%N :: code_points cs1
  end.

(** [Py_UNICODE_ISSPACE] above U+007E: the characters of bidirectional
    type WS, B or S and of category Zs. *)
Definition unicode_isspace (cp : N) : bool :=
  existsb (N.eqb cp) [133; 160; 5760; 8232; 8233; 8239; 8287; 12288]%N
  || ((8192 <=? cp) && (cp <=? 8202))%N.

(** The code points of the digit zero of each run of ten decimal digits
    (category Nd) above U+007E. *)
Definition decimal_zeros : list N :=
  [ 1632; 1776; 1984; 2406; 2534; 2662; 2790; 2918; 3046; 3174; 3302; 3430;
    3558; 3664; 3792; 3872; 4160; 4240; 6112; 6160; 6470; 6608; 6784; 6800;
    6992; 7088; 7232; 7248; 42528; 43216; 43264; 43472; 43504; 43600;
    44016; 65296; 66720; 68912; 69734; 69872; 69942; 70096; 70384; 70736;
    70864; 71248; 71360; 71472; 71904; 72016; 72784; 73040; 73120; 92768;
    92864; 93008; 120782; 120792; 120802; 120812; 120822; 123200; 123632;
    125264; 130032 ]%N.

(** [Py_UNICODE_TODECIMAL] above U+007E. *)
Definition unicode_decimal (cp : N) : option N :=
  match List.find (fun z => ((z <=? cp) && (cp <? z + 10))%N) decimal_zeros with
  | Some z => Some (cp - z)%N
  | None => None
  end.

(** The loop of [_PyUnicode_TransformDecimalAndSpaceToASCII]: the text is
    cut at the first character that is neither ASCII, a space nor a decimal
    digit, which is put as [?]. *)
Fixpoint to_ascii (cps : list N) : list ascii :=
  match cps with
  | [] => []
  | cp :: cps' =>
      if (cp <? 127)%N then ascii_of_N cp :: to_ascii cps'
      else if unicode_isspace cp then " "%char :: to_ascii cps'
      else
        match unicode_decimal cp with
        | Some d => ascii_of_N (48 + d) :: to_ascii cps'
        | None => ["?"%char]
        end
  end.

(** [_PyUnicode_TransformDecimalAndSpaceToASCII]: an ASCII text is returned
    as it is. *)
Definition decimal_and_space_to_ascii (s : string) : list ascii :=
  let cs := list_ascii_of_string s in
  if forallb (fun c => (byte c <? 128)%N) cs then cs
  else to_ascii (code_points cs).

(** [Py_ISSPACE]: blank, [\t], [\n], [\v], [\f], [\r]. The separators
    U+001C to U+001F, which [str.isspace] accepts, are not among them. *)
Definition is_space (c : ascii) : bool :=
  let n := code c in
  ((9 <=? n) && (n <=? 13) || (n =? 32))%nat.

Definition is_digit (c : ascii) : bool :=
  let n := code c in ((48 <=? n) && (n <=? 57))%nat.

Definition digit_val (c : ascii) : Z := Z.of_nat (code c - 48).

Definition lower (c : ascii) : ascii :=
  let n := code c in
  if ((65 <=? n) && (n <=? 90))%nat then ascii_of_nat (n + 32) else c.

Fixpoint lstrip (cs : list ascii) : list ascii :=
  match cs with
  | c :: cs' => if is_space c then lstrip cs' else cs
  | [] => []
  end.

Definition strip (cs : list ascii) : list ascii :=
  rev (lstrip (rev (lstrip cs))).

(** The digits that follow a first digit of a [digitpart]: a single
    underscore is allowed between two digits. Returns the digits read and
    the rest of the text. *)
Fixpoint digit_run (cs : list ascii) : list ascii * list ascii :=
  match cs with
  | c :: cs' =>
      if is_digit c then
        let '(ds, rest) := digit_run cs' in (c :: ds, rest)
      else if Ascii.eqb c "_" then
        match cs' with
        | c2 :: _ =>
            if is_digit c2 then digit_run cs' else ([], cs)
        | [] => ([], cs)
        end
      else ([], cs)
  | [] => ([], [])
  end.

(** [digitpart ::= digit (["_"] digit)*] *)
Definition digitpart (cs : list ascii) : option (list ascii * list ascii) :=
  match cs with
  | c :: cs' =>
      if is_digit c then
        let '(ds, rest) := digit_run cs' in Some (c :: ds, rest)
      else None
  | [] => None
  end.

Definition digits_value (ds : list ascii) : Z :=
  fold_left (fun acc c => (10 * acc + digit_val c)%Z) ds 0%Z.

(** [sign ::= "+" | "-"]; [true] is negative. *)
Definition sign (cs : list ascii) : bool * list ascii :=
  match cs with
  | c :: cs' =>
      if Ascii.eqb c "-" then (true, cs')
      else if Ascii.eqb c "+" then (false, cs')
      else (false, cs)
  | [] => (false, [])
  end.

(** The binary64 value nearest to [m * 10^e10] (ties to even); a value too
    large becomes an infinity, as in [float("1e400")]. *)
Definition decimal_to_float (neg : bool) (m : Z) (e10 : Z) : spec_float :=
  match m with
  | Zpos p =>
      match e10 with
      | Zneg k =>
          let '(q, e, l) := SFdiv_core_binary prec emax m 0 (10 ^ Zpos k) 0 in
          binary_round_aux prec emax neg q e l
      | _ => binary_normalize prec emax (if neg then - (m * 10 ^ e10) else m * 10 ^ e10) 0 neg
      end
  | _ => S754_zero neg
  end.

(** [exponent ::= ("e" | "E") [sign] digitpart]; without one the exponent is 0. *)
Definition exponent (cs : list ascii) : option (Z * list ascii) :=
  match cs with
  | c :: cs' =>
      if Ascii.eqb (lower c) "e" then
        let '(neg, cs'') := sign cs' in
        match digitpart cs'' with
        | Some (ds, rest) =>
            Some (if neg then (- digits_value ds)%Z else digits_value ds, rest)
        | None => None
        end
      else Some (0%Z, cs)
  | [] => Some (0%Z, [])
  end.

(** [number ::= [digitpart] "." digitpart | digitpart ["."]]: the digits of
    the integer part, those of the fraction, and the rest. *)
Definition number (cs : list ascii) : option (list ascii * list ascii * list ascii) :=
  match digitpart cs with
  | Some (ip, rest) =>
      match rest with
      | c :: rest' =>
          if Ascii.eqb c "." then
            match digitpart rest' with
            | Some (fp, rest'') => Some (ip, fp, rest'')
            | None => Some (ip, [], rest')
            end
          else Some (ip, [], rest)
      | [] => Some (ip, [], [])
      end
  | None =>
      match cs with
      | c :: rest' =>
          if Ascii.eqb c "." then
            match digitpart rest' with
            | Some (fp, rest'') => Some ([], fp, rest'')
            | None => None
            end
          else None
      | [] => None
      end
  end.

(** [float(s)] for a string: [None] stands for [ValueError]. *)
Definition float_of_string (s : string) : option spec_float :=
  let '(neg, body) := sign (strip (decimal_and_space_to_ascii s)) in
  let word := string_of_list_ascii (map lower body) in
  if String.eqb word "inf" || String.eqb word "infinity" then
    Some (S754_infinity neg)
  else if String.eqb word "nan" then Some S754_nan
  else
    match number body with
    | Some (ip, fp, rest) =>
        match exponent rest with
        | Some (e, []) =>
            Some (decimal_to_float neg (digits_value (ip ++ fp))
                    (e - Z.of_nat (length fp)))
        | _ => None
        end
    | None => None
    end.

(** [sys.int_info.default_max_str_digits]: [int] refuses a text of more
    digits. *)
Definition max_str_digits : nat := 4300.

(** [int(s)] for a string, base 10: [None] stands for [ValueError]. *)
Definition int_of_string (s : string) : option Z :=
  let '(neg, body) := sign (strip (decimal_and_space_to_ascii s)) in
  match digitpart body with
  | Some (ds, []) =>
      if (length ds <=? max_str_digits)%nat then
        Some (if neg then (- digits_value ds)%Z else digits_value ds)
      else None
  | _ => None
  end.

(** *** The builtins [float] and [int] *)

(** [float(n)] for an [int]: the nearest binary64, [OverflowError] when it
    is out of range. *)
Definition float_of_int (z : Z) : result spec_float :=
  match binary_normalize prec emax z 0 false with
  | S754_infinity _ => Raise OverflowError
  | f => Ok f
  end.

Definition py_float (v : value) : result spec_float :=
  match v with
  | VFloat f => Ok f
  | VInt z => float_of_int z
  | VBool b => float_of_int (if b then 1 else 0)
  | VStr s =>
      match float_of_string s with
      | Some f => Ok f
      | None => Raise ValueError
      end
  | VNone | VNaT | VTimestamp _ => Raise TypeError
  end.

(** [int(x)] for a float: truncation toward zero. *)
Definition int_of_float (f : spec_float) : result Z :=
  match f with
  | S754_nan => Raise ValueError
  | S754_infinity _ => Raise OverflowError
  | S754_zero _ => Ok 0%Z
  | S754_finite s m e =>
      let a := match e with
               | Zneg k => (Zpos m / 2 ^ Zpos k)%Z
               | _ => (Zpos m * 2 ^ e)%Z
               end in
      Ok (if s then (- a)%Z else a)
  end.

Definition py_int (v : value) : result Z :=
  match v with
  | VInt z => Ok z
  | VBool b => Ok (if b then 1 else 0)%Z
  | VFloat f => int_of_float f
  | VStr s =>
      match int_of_string s with
      | Some z => Ok z
      | None => Raise ValueError
      end
  | VNone | VNaT | VTimestamp _ => Raise TypeError
  end.

End Py.

(** ** RowNormalizer: [prepare_data_for_mongodb] *)

(** A row of a parsed table, and a record ready for the store: a mapping
    from column name to scalar ([dict]). *)
Abbreviation record := (gmap string Py.value).

(** A parsed table ([pd.DataFrame]): its rows in order. *)
Abbreviation DataFrame := (list (gmap string Py.value)).

Module Normalizer.
Import Py.

(** [df.to_dict('records')]: one dictionary per row. *)
Definition to_dict_records (df : DataFrame) : list record := df.

Definition numeric_fields : list string :=
  [ "Open"; "High"; "Low"; "Close"; "Volume"; "Quote asset volume";
    "Number of trades"; "Taker buy base asset volume";
    "Taker buy quote asset volume"; "Ignore" ].

(** The body of [for field in numeric_fields]:
<<
    if field in record and pd.notna(record[field]):
        try:
            record[field] = float(record[field])
        except (ValueError, TypeError):
            record[field] = None
>> *)
Definition coerce_float (rec : gmap string value) (field : string)
  : result (gmap string value) :=
  match rec !! field with
  | Some v =>
      if pd_notna v then
        rtry (rbind (py_float v) (fun f => Ok (<[field := VFloat f]> rec)))
             is_ValueError_or_TypeError
             (fun _ => Ok (<[field := VNone]> rec))
      else Ok rec
  | None => Ok rec
  end.

(** The second step, on ['Number of trades'] only:
<<
    if 'Number of trades' in record and pd.notna(record['Number of trades']):
        try:
            record['Number of trades'] = int(record['Number of trades'])
        except (ValueError, TypeError):
            record['Number of trades'] = None
>> *)
Definition coerce_int (rec : gmap string value) (field : string)
  : result (gmap string value) :=
  match rec !! field with
  | Some v =>
      if pd_notna v then
        rtry (rbind (py_int v) (fun z => Ok (<[field := VInt z]> rec)))
             is_ValueError_or_TypeError
             (fun _ => Ok (<[field := VNone]> rec))
      else Ok rec
  | None => Ok rec
  end.

(** What the first coercion makes of the value of a field that is present. *)
Definition float_coerced (v : value) : result value :=
  if pd_notna v then
    rtry (rbind (py_float v) (fun f => Ok (VFloat f)))
         is_ValueError_or_TypeError (fun _ => Ok VNone)
  else Ok v.

(** What the second coercion makes of the value of a field that is present. *)
Definition int_coerced (v : value) : result value :=
  if pd_notna v then
    rtry (rbind (py_int v) (fun z => Ok (VInt z)))
         is_ValueError_or_TypeError (fun _ => Ok VNone)
  else Ok v.

(** The body of [for record in records]. *)
Definition prepare_record (rec : gmap string value) : result (gmap string value) :=
  rbind (rfold coerce_float numeric_fields rec)
        (fun rec' => coerce_int rec' "Number of trades").

Definition prepare_data_for_mongodb (df : DataFrame) : result (list record) :=
  rmap prepare_record (to_dict_records df).

End Normalizer.

(** ** Paths, ranges and slices *)

Module PyLib.

(** [name.endswith(suffix)] *)
Definition endswith (name suffix : string) : bool :=
  let n := String.length name in
  let k := String.length suffix in
  (k <=? n)%nat && String.eqb (substring (n - k) k name) suffix.

(** [os.path.join(a, b)] on POSIX. *)
Definition os_path_join (a b : string) : string :=
  if String.prefix "/" b then b
  else if String.eqb a "" || endswith a "/" then a ++ b
  else a ++ "/" ++ b.

(** The text after the last ['/'] of a list of characters read from the
    left, [acc] being the text since the last ['/'] seen. *)
Fixpoint after_last_slash (cs : list ascii) (acc : list ascii) : list ascii :=
  match cs with
  | [] => acc
  | c :: cs' =>
      if Ascii.eqb c "/" then after_last_slash cs' []
      else after_last_slash cs' (acc ++ [c])
  end.

(** [os.path.basename(p)] on POSIX. *)
Definition os_path_basename (p : string) : string :=
  string_of_list_ascii (after_last_slash (list_ascii_of_string p) []).

(** [list(range(start, stop, step))]; a zero step is a [ValueError]. *)
Definition py_range (start stop step : Z) : result (list Z) :=
  if (step =? 0)%Z then Raise ValueError
  else
    let len :=
      if (0 <? step)%Z then
        if (start <? stop)%Z then ((stop - start - 1) / step + 1)%Z else 0%Z
      else
        if (stop <? start)%Z then ((start - stop - 1) / (- step) + 1)%Z else 0%Z in
    Ok (map (fun k => (start + Z.of_nat k * step)%Z) (seq 0 (Z.to_nat len))).

(** How a slice bound is brought into [0 .. n]. *)
Definition clamp_index (n i : Z) : Z :=
  if (i <? 0)%Z then Z.max 0 (i + n) else Z.min i n.

(** [l[lo:hi]] *)
Definition py_slice {A} (l : list A) (lo hi : Z) : list A :=
  let n := Z.of_nat (length l) in
  let a := clamp_index n lo in
  let b := clamp_index n hi in
  take (Z.to_nat (b - a)) (drop (Z.to_nat a) l).

(** [len(l)] *)
Definition len {A} (l : list A) : Z := Z.of_nat (length l).

(** How many values [range(0, n, step)] has for a positive [step]. *)
Definition steps (n step : Z) : nat :=
  Z.to_nat (if (0 <? n)%Z then ((n - 0 - 1) / step + 1)%Z else 0%Z).

(** The slices [l[j : j + step]] for [j in range(0, len(l), step)], in
    order: the batches of the insertion loop. *)
Definition batches_of {A} (l : list A) (step : Z) : list (list A) :=
  match py_range 0 (len l) step with
  | Ok js => map (fun j => py_slice l j (j + step)) js
  | Raise _ => []
  end.

End PyLib.

(** ** FileDiscovery and the table of a file *)

Module Discovery.
Import Py PyLib.

(** The first loop of [read_csv_files]: the entries of the listing whose
    name ends in [.csv], each joined to the directory, in listing order. *)
Definition csv_files_of (csv_directory : string) (listing : list string) : list string :=
  map (os_path_join csv_directory)
      (List.filter (fun file => endswith file ".csv") listing).

(** [df[column] = scalar]: every row gets the scalar under that column. *)
Definition set_column (df : DataFrame) (column : string) (v : value) : DataFrame :=
  map (fun row => <[column := v]> row) df.

(** What [read_csv_files] makes of the table [df] of [csv_file] parsed at
    time [t]: the two provenance columns are set. *)
Definition tagged (csv_file : string) (t : Z) (df : DataFrame) : DataFrame :=
  set_column
    (set_column df "source_file" (VStr (PyLib.os_path_basename csv_file)))
    "import_timestamp" (VTimestamp t).

(** Whether a list of names is in ascending order ([sorted(l) == l]). *)
Fixpoint sorted_by_name (l : list string) : bool :=
  match l with
  | a :: (b :: _) as l' => String.leb a b && sorted_by_name l'
  | _ => true
  end.

End Discovery.

(** ** The collaborators and the loader's state *)

(** What [insert_many] returns when nothing was rejected. *)
Record InsertManyResult := { inserted_ids : list Z }.

(** The operations the loader calls on the outside world [W]. Each takes
    the world before the call and gives the outcome and the world after. *)
Record Collaborators (W : Type) := {
  os_listdir : string -> W -> result (list string) * W;
  (** [pd.read_csv(path, parse_dates=[...], infer_datetime_format=True)] *)
  pd_read_csv : string -> list string -> W -> result DataFrame * W;
  datetime_now : W -> Z * W;
  (** [MongoClient(uri, serverSelectionTimeoutMS=5000)] *)
  MongoClient : string -> Z -> W -> result unit * W;
  (** [client.admin.command('ping')] *)
  admin_ping : W -> result unit * W;
  (** [collection.insert_many(batch, ordered=...)] *)
  insert_many : list record -> bool -> W -> result InsertManyResult * W;
  (** [next(collection.find().limit(1), default)]: [None] when the cursor is
      empty and the default is taken. *)
  find_limit_1 : W -> result (option record) * W;
  (** [collection.create_index(keys)] *)
  create_index : list (string * Z) -> W -> result unit * W;
  (** [client.close()] *)
  client_close : W -> W
}.
Arguments os_listdir {W}.
Arguments pd_read_csv {W}.
Arguments datetime_now {W}.
Arguments MongoClient {W}.
Arguments admin_ping {W}.
Arguments insert_many {W}.
Arguments find_limit_1 {W}.
Arguments create_index {W}.
Arguments client_close {W}.

(** The calls made, in order, with what was passed. *)
Inductive call :=
| Call_listdir (csv_directory : string)
| Call_read_csv (csv_file : string)
| Call_now
| Call_MongoClient (uri : string)
| Call_ping
| Call_insert_many (batch : list record) (ordered : bool)
| Call_find
| Call_create_index (keys : list (string * Z))
| Call_disconnect
| Call_close
| Log_total_records (total_records : Z)
| Log_indexes (index_info : list string).

(** The files handed to [pd.read_csv], in order. *)
Definition files_read (trace : list call) : list string :=
  omap (fun c => match c with Call_read_csv f => Some f | _ => None end) trace.

(** The batches handed to [insert_many], in order. *)
Definition batches_inserted (trace : list call) : list (list record) :=
  omap (fun c => match c with Call_insert_many b _ => Some b | _ => None end) trace.

(** The keys handed to [create_index], in order. *)
Definition indexes_created (trace : list call) : list (list (string * Z)) :=
  omap (fun c => match c with Call_create_index k => Some k | _ => None end) trace.

(** How many documents were sampled. *)
Definition samples_taken (trace : list call) : nat :=
  length (List.filter (fun c => match c with Call_find => true | _ => false end) trace).

(** The loader object ([self]) together with the world and the calls made
    so far. [client] and [collection] tell whether the attribute is set
    (not [None]). *)
Record state (W : Type) := {
  world : W;
  mongo_uri : string;
  client : bool;
  collection : bool;
  calls : list call
}.
Arguments world {W}.
Arguments mongo_uri {W}.
Arguments client {W}.
Arguments collection {W}.
Arguments calls {W}.
Arguments Build_state {W}.

(** [CSVToMongoDBLoader(mongo_uri, db_name, collection_name)] in a world. *)
Definition init {W} (uri : string) (w : W) : state W :=
  {| world := w; mongo_uri := uri; client := false; collection := false;
     calls := [] |}.

(** *** The monad of the loader's methods *)

Definition M (W A : Type) : Type := state W -> result A * state W.

Definition ret {W A} (a : A) : M W A := fun s => (Ok a, s).

Definition raise {W A} (e : exn) : M W A := fun s => (Raise e, s).

Definition bind {W A B} (m : M W A) (k : A -> M W B) : M W B :=
  fun s =>
    match m s with
    | (Ok a, s') => k a s'
    | (Raise e, s') => (Raise e, s')
    end.

Notation "x <- m ;; k" := (bind m (fun x => k))
  (at level 100, m at next level, right associativity).
Notation "m ;;; k" := (bind m (fun _ => k))
  (at level 100, right associativity).

(** A pure computation inside a method. *)
Definition lift {W A} (r : result A) : M W A := fun s => (r, s).

(** [try: body  except ...: handler]: [handler e] is [None] when no clause
    matches [e]. *)
Definition try_except {W A} (body : M W A) (handler : exn -> option (M W A))
  : M W A :=
  fun s =>
    match body s with
    | (Ok a, s') => (Ok a, s')
    | (Raise e, s') =>
        match handler e with
        | Some h => h s'
        | None => (Raise e, s')
        end
    end.

(** [try: body  finally: final]: [final] runs on every exit of [body]; an
    exception of [final] replaces the outcome of [body]. *)
Definition try_finally {W A} (body : M W A) (final : M W unit) : M W A :=
  fun s =>
    let '(r, s') := body s in
    match final s' with
    | (Ok _, s'') => (r, s'')
    | (Raise e, s'') => (Raise e, s'')
    end.

(** [except Exception as e: h] *)
Definition except_Exception {W A} (h : M W A) : exn -> option (M W A) :=
  fun e => if is_Exception e then Some h else None.

(** [except ConnectionFailure as e: h] *)
Definition except_ConnectionFailure {W A} (h : M W A) : exn -> option (M W A) :=
  fun e => if is_ConnectionFailure e then Some h else None.

(** [except BulkWriteError as e: h e.details] *)
Definition except_BulkWriteError {W A} (h : bulk_details -> M W A)
  : exn -> option (M W A) :=
  fun e => match e with BulkWriteError d => Some (h d) | _ => None end.

Definition record_call {W} (c : call) : M W unit :=
  fun s => (Ok tt, {| world := world s; mongo_uri := mongo_uri s;
                      client := client s; collection := collection s;
                      calls := calls s ++ [c] |}).

(** A call of a collaborator: noted, then made on the world. *)
Definition perform {W A} (c : call) (op : W -> result A * W) : M W A :=
  fun s =>
    let '(r, w') := op (world s) in
    (r, {| world := w'; mongo_uri := mongo_uri s; client := client s;
           collection := collection s; calls := calls s ++ [c] |}).

Definition get {W} : M W (state W) := fun s => (Ok s, s).

Definition set_client {W} (b : bool) : M W unit :=
  fun s => (Ok tt, {| world := world s; mongo_uri := mongo_uri s; client := b;
                      collection := collection s; calls := calls s |}).

Definition set_collection {W} (b : bool) : M W unit :=
  fun s => (Ok tt, {| world := world s; mongo_uri := mongo_uri s;
                      client := client s; collection := b; calls := calls s |}).

(** [self.collection.<method>]: an [AttributeError] while the attribute is
    [None]. *)
Definition on_collection {W A} (m : M W A) : M W A :=
  fun s => if collection s then m s else (Raise AttributeError, s).

(** A computation that leaves the loader's attributes alone and only adds
    to the calls made. *)
Definition frames {W A} (m : M W A) : Prop :=
  forall s, client (snd (m s)) = client s /\
            collection (snd (m s)) = collection s /\
            mongo_uri (snd (m s)) = mongo_uri s /\
            exists new, calls (snd (m s)) = (calls s ++ new)%list.

(** A driver whose [insert_many] never fails and reports one inserted id
    per document of the batch. *)
Definition accepts_all {W} (drv : Collaborators W) : Prop :=
  forall batch ordered w,
    exists result w',
      insert_many drv batch ordered w = (Ok result, w') /\
      length (inserted_ids result) = length batch.

(** A computation all of whose calls satisfy [P]. *)
Definition emits {W A} (P : call -> Prop) (m : M W A) : Prop :=
  forall s, exists new,
    calls (snd (m s)) = (calls s ++ new)%list /\ Forall P new.

(** The calls of file discovery and reading. *)
Definition reading_call (c : call) : Prop :=
  match c with
  | Call_listdir _ | Call_read_csv _ | Call_now => True
  | _ => False
  end.

(** An [insert_many] of a batch that is not empty, unordered. *)
Definition insertion_call (c : call) : Prop :=
  match c with
  | Call_insert_many batch ordered => batch <> [] /\ ordered = false
  | _ => False
  end.

(** The calls of index provisioning. *)
Definition indexing_call (c : call) : Prop :=
  match c with
  | Call_find | Call_create_index _ | Log_indexes _ => True
  | _ => False
  end.

(** The calls made between connecting and disconnecting. *)
Definition body_call (c : call) : Prop :=
  reading_call c \/ insertion_call c \/ indexing_call c \/
  exists total_records, c = Log_total_records total_records.

(** A computation from which no [BulkWriteError] escapes. *)
Definition bulk_free {W A} (m : M W A) : Prop :=
  forall s e s', m s = (Raise e, s') -> is_BulkWriteError e = false.

(** ** The methods of [CSVToMongoDBLoader] *)

Module Loader.
Import Py PyLib Discovery Normalizer.

Section Methods.
Context {W : Type} (drv : Collaborators W).

Definition connect_to_mongodb : M W bool :=
  try_except
    (s <- get ;;
     perform (Call_MongoClient (mongo_uri s)) (MongoClient drv (mongo_uri s) 5000) ;;;
     set_client true ;;;
     perform Call_ping (admin_ping drv) ;;;
     set_collection true ;;;
     ret true)
    (except_ConnectionFailure (ret false)).

(** The connection attempt fails with [e]: the constructor of the client, or
    the ping that follows it, raises [e]. *)
Definition connection_fails (s : state W) (e : exn) : Prop :=
  fst (MongoClient drv (mongo_uri s) 5000 (world s)) = Raise e \/
  exists w1,
    MongoClient drv (mongo_uri s) 5000 (world s) = (Ok tt, w1) /\
    fst (admin_ping drv w1) = Raise e.

Definition disconnect : M W unit :=
  record_call Call_disconnect ;;;
  s <- get ;;
  if client s then
    perform Call_close (fun w => (Ok tt, client_close drv w))
  else ret tt.

(** The body of [for csv_file in csv_files], [dataframes] being the list
    built so far: a file that fails to parse is skipped. *)
Definition read_one_file (csv_file : string) (dataframes : list DataFrame)
  : M W (list DataFrame) :=
  try_except
    (df <- perform (Call_read_csv csv_file)
             (pd_read_csv drv csv_file ["Open time"; "Close time"]) ;;
     let df := set_column df "source_file" (VStr (os_path_basename csv_file)) in
     now <- perform Call_now (fun w => let '(t, w') := datetime_now drv w in (Ok t, w')) ;;
     let df := set_column df "import_timestamp" (VTimestamp now) in
     ret (dataframes ++ [df])%list)
    (except_Exception (ret dataframes)).

Fixpoint read_each (csv_files : list string) (dataframes : list DataFrame)
  : M W (list DataFrame) :=
  match csv_files with
  | [] => ret dataframes
  | csv_file :: rest =>
      dataframes' <- read_one_file csv_file dataframes ;;
      read_each rest dataframes'
  end.

(** The outer handler is only reached from [os.listdir], before any table
    was appended, so it returns the empty list. *)
Definition read_csv_files (csv_directory : string) : M W (list DataFrame) :=
  try_except
    (listing <- perform (Call_listdir csv_directory) (os_listdir drv csv_directory) ;;
     let csv_files := csv_files_of csv_directory listing in
     match csv_files with
     | [] => ret []
     | _ => read_each csv_files []
     end)
    (except_Exception (ret [])).

(** What the reading loop meets in the outside world for the files it is
    handed, from the world [w] on: the files that parse, in order, each with
    the table [pd.read_csv] gave for it and the time the clock gave right
    after, and the world left at the end. A file on which [pd.read_csv]
    raises an [Exception] brings nothing. *)
Inductive parsed : list string -> W -> list (string * Z * DataFrame) -> W -> Prop :=
| parsed_end w : parsed [] w [] w
| parsed_table csv_file rest w df w1 t w2 found w3 :
    pd_read_csv drv csv_file ["Open time"; "Close time"] w = (Ok df, w1) ->
    datetime_now drv w1 = (t, w2) ->
    parsed rest w2 found w3 ->
    parsed (csv_file :: rest) w ((csv_file, t, df) :: found) w3
| parsed_skip csv_file rest w e w1 found w3 :
    pd_read_csv drv csv_file ["Open time"; "Close time"] w = (Raise e, w1) ->
    is_Exception e = true ->
    parsed rest w1 found w3 ->
    parsed (csv_file :: rest) w found w3.

(** [field in d] on a dictionary. *)
Definition py_in (field : string) (d : gmap string value) : bool :=
  match d !! field with Some _ => true | None => false end.

(** One of the three blocks of [create_indexes]:
<<
    if field in next(self.collection.find().limit(1), {}):
        self.collection.create_index([(field, 1)])
        index_info.append(field)
>> *)
Definition index_if_present (field : string) (index_info : list string)
  : M W (list string) :=
  doc <- on_collection (perform Call_find (find_limit_1 drv)) ;;
  if py_in field (default ∅ doc) then
    on_collection (perform (Call_create_index [(field, 1%Z)])
                           (create_index drv [(field, 1%Z)])) ;;;
    ret (index_info ++ [field])%list
  else ret index_info.

(** The body of the [try] of [create_indexes]. *)
Definition create_indexes_body : M W unit :=
  index_info <- index_if_present "Open time" [] ;;
  index_info <- index_if_present "Close time" index_info ;;
  index_info <- index_if_present "source_file" index_info ;;
  record_call (Log_indexes index_info).

Definition create_indexes : M W unit :=
  try_except create_indexes_body (except_Exception (ret tt)).

(** Index provisioning as the specification words it, to compare with
    [create_indexes]: one document is sampled, and the three fields are
    looked up in that one sample. *)
Definition index_if_in_sample (field : string) (sample : gmap string value)
    (index_info : list string) : M W (list string) :=
  if py_in field sample then
    on_collection (perform (Call_create_index [(field, 1%Z)])
                           (create_index drv [(field, 1%Z)])) ;;;
    ret (index_info ++ [field])%list
  else ret index_info.

Definition create_indexes_one_sample : M W unit :=
  try_except
    (doc <- on_collection (perform Call_find (find_limit_1 drv)) ;;
     let sample := default ∅ doc in
     index_info <- index_if_in_sample "Open time" sample [] ;;
     index_info <- index_if_in_sample "Close time" sample index_info ;;
     index_info <- index_if_in_sample "source_file" sample index_info ;;
     record_call (Log_indexes index_info))
    (except_Exception (ret tt)).

(** The calls of one block of [create_indexes] whose query returned
    [doc]: the query, then the index when the field is in the sample. *)
Definition index_calls (field : string) (doc : option (gmap string value))
  : list call :=
  Call_find ::
  (if py_in field (default ∅ doc) then [Call_create_index [(field, 1%Z)]] else []).

(** What one block of [create_indexes] meets in the outside world from
    the world [w] on, when nothing is raised: its query samples [doc], and
    the index on [field] is made when [field] is in that sample; [w'] is the
    world left. *)
Definition block_sampled (field : string) (w : W)
    (doc : option (gmap string value)) (w' : W) : Prop :=
  exists w1,
    find_limit_1 drv w = (Ok doc, w1) /\
    if py_in field (default ∅ doc)
    then create_index drv [(field, 1%Z)] w1 = (Ok tt, w')
    else w' = w1.

(** The body of [for j in range(0, len(records), batch_size)], returning the
    new [total_records]. *)
Definition insert_batch (batch : list record) (total_records : Z) : M W Z :=
  try_except
    (result <- on_collection (perform (Call_insert_many batch false)
                                      (insert_many drv batch false)) ;;
     ret (total_records + len (inserted_ids result))%Z)
    (except_BulkWriteError (fun details =>
       let error_count := len (writeErrors details) in
       let successful_inserts := (len batch - error_count)%Z in
       ret (total_records + successful_inserts)%Z)).

Fixpoint insert_batches (records : list record) (batch_size : Z)
    (js : list Z) (total_records : Z) : M W Z :=
  match js with
  | [] => ret total_records
  | j :: js' =>
      let batch := py_slice records j (j + batch_size) in
      total_records' <- insert_batch batch total_records ;;
      insert_batches records batch_size js' total_records'
  end.

(** [for j in range(0, len(records), batch_size): ...] *)
Definition insert_records (records : list record) (batch_size : Z)
    (total_records : Z) : M W Z :=
  js <- lift (py_range 0 (len records) batch_size) ;;
  insert_batches records batch_size js total_records.

(** The body of [for i, df in enumerate(dataframes)]. *)
Definition process_dataframe (df : DataFrame) (batch_size : Z)
    (total_records : Z) : M W Z :=
  records <- lift (prepare_data_for_mongodb df) ;;
  insert_records records batch_size total_records.

Fixpoint process_dataframes (dataframes : list DataFrame) (batch_size : Z)
    (total_records : Z) : M W Z :=
  match dataframes with
  | [] => ret total_records
  | df :: rest =>
      total_records' <- process_dataframe df batch_size total_records ;;
      process_dataframes rest batch_size total_records'
  end.

(** What follows the emptiness test inside the [try] of
    [load_data_to_mongodb]: the load loop, the index creation and
    [return True]. *)
Definition load_loop (dataframes : list DataFrame) (batch_size : Z) : M W bool :=
  total_records <- process_dataframes dataframes batch_size 0%Z ;;
  record_call (Log_total_records total_records) ;;;
  create_indexes ;;;
  ret true.

(** The body of the [try] of [load_data_to_mongodb]. *)
Definition load_body (csv_directory : string) (batch_size : Z) : M W bool :=
  dataframes <- read_csv_files csv_directory ;;
  match dataframes with
  | [] => ret false
  | _ => load_loop dataframes batch_size
  end.

Definition load_data_to_mongodb (csv_directory : string) (batch_size : Z)
  : M W bool :=
  connected <- connect_to_mongodb ;;
  if negb connected then ret false
  else
    try_finally
      (try_except (load_body csv_directory batch_size)
                  (except_Exception (ret false)))
      disconnect.

End Methods.
End Loader.

(** ** A scripted world

    A world whose collaborators answer from a script: the directory
    listing, the table (or the error) of each file, the clock, and the
    outcomes of the successive driver calls. It serves to run the loader on
    concrete inputs. *)

Module Script.
Import Py PyLib.

Record script := {
  listing : result (list string);
  tables : list (string * result DataFrame);
  clock : Z;
  new_client : result unit;
  ping : result unit;
  (** outcomes of the successive [insert_many] calls; once used up, every
      batch is inserted whole *)
  inserts : list (result InsertManyResult);
  (** outcomes of the successive [find] calls; once used up, the cursor is
      empty *)
  finds : list (result (option record));
  index_outcome : result unit;
  closed : bool
}.

Fixpoint assoc {A} (k : string) (l : list (string * A)) : option A :=
  match l with
  | [] => None
  | (k', a) :: l' => if String.eqb k k' then Some a else assoc k l'
  end.

Definition driver : Collaborators script := {|
  os_listdir := fun _ w => (listing w, w);
  pd_read_csv := fun path _ w =>
    (match assoc path (tables w) with
     | Some r => r
     | None => Raise OSError
     end, w);
  datetime_now := fun w =>
    (clock w,
     {| listing := listing w; tables := tables w; clock := (clock w + 1)%Z;
        new_client := new_client w; ping := ping w; inserts := inserts w;
        finds := finds w; index_outcome := index_outcome w;
        closed := closed w |});
  MongoClient := fun _ _ w => (new_client w, w);
  admin_ping := fun w => (ping w, w);
  insert_many := fun batch _ w =>
    (match inserts w with
     | r :: _ => r
     | [] => Ok {| inserted_ids := map Z.of_nat (seq 0 (length batch)) |}
     end,
     {| listing := listing w; tables := tables w; clock := clock w;
        new_client := new_client w; ping := ping w; inserts := tail (inserts w);
        finds := finds w; index_outcome := index_outcome w;
        closed := closed w |});
  find_limit_1 := fun w =>
    (match finds w with
     | r :: _ => r
     | [] => Ok None
     end,
     {| listing := listing w; tables := tables w; clock := clock w;
        new_client := new_client w; ping := ping w; inserts := inserts w;
        finds := tail (finds w); index_outcome := index_outcome w;
        closed := closed w |});
  create_index := fun _ w => (index_outcome w, w);
  client_close := fun w =>
    {| listing := listing w; tables := tables w; clock := clock w;
       new_client := new_client w; ping := ping w; inserts := inserts w;
       finds := finds w; index_outcome := index_outcome w; closed := true |}
|}.

End Script.

(** ** Concrete runs *)

Module Examples.
Import Py PyLib Script.

Definition uri : string := "mongodb://localhost:27017/".

(** U+00A0, the no-break space, in UTF-8. *)
Definition no_break_space : string := String "194" (String "160" "").

(** U+001C, the file separator. *)
Definition file_separator : string := String "028" "".

(** The binary64 value 12.0. *)
Definition twelve : spec_float := S754_finite false 6755399441055744 (-49).

(** A candle row as [pd.read_csv] yields it. *)
Definition candle (open_time : Z) (volume : value) (trades : value) : gmap string value :=
  {[ "Open time" := VTimestamp open_time; "Volume" := volume;
     "Number of trades" := trades ]}.

(** A directory listed as [b.csv], [notes.txt], [a.csv]: [a.csv] holds
    three rows, [b.csv] one row whose volume is not a number; the store
    accepts everything. *)
Definition two_files : script := {|
  listing := Ok ["b.csv"; "notes.txt"; "a.csv"];
  tables :=
    [ ("data/a.csv",
       Ok [ candle 1 (VStr "10.5") (VInt 7); candle 2 (VInt 3) (VInt 8);
            candle 3 (VInt 4) (VInt 9) ]);
      ("data/b.csv", Ok [ candle 4 (VStr "n/a") (VInt 2) ]) ];
  clock := 1700000000;
  new_client := Ok tt;
  ping := Ok tt;
  inserts := [];
  finds := [];
  index_outcome := Ok tt;
  closed := false
|}.

(** The tables [read_csv_files] returns for the directory [data] of a
    scripted world. *)
Definition tables_read (w : script) : list DataFrame :=
  match fst (Loader.read_csv_files driver "data" (init uri w)) with
  | Ok dataframes => dataframes
  | Raise _ => []
  end.

(** The three records of [a.csv], normalised. *)
Definition three_records : list record :=
  [ candle 1 (VFloat (S754_finite false 5910974510923776 (-49))) (VInt 7);
    candle 2 (VFloat (S754_finite false 6755399441055744 (-51))) (VInt 8);
    candle 3 (VFloat (S754_finite false 4503599627370496 (-50))) (VInt 9) ].

(** A loader that has connected: client and collection are set. *)
Definition connected (w : script) : state script :=
  {| world := w; mongo_uri := uri; client := true; collection := true;
     calls := [] |}.

(** The store rejects one document of the first batch (a duplicate key). *)
Definition one_rejected : script := {|
  listing := listing two_files;
  tables := tables two_files;
  clock := 1700000000;
  new_client := Ok tt;
  ping := Ok tt;
  inserts :=
    [ Raise (BulkWriteError
               {| writeErrors := [ {| we_index := 0; we_code := 11000 |} ];
                  nInserted := 1 |}) ];
  finds := [];
  index_outcome := Ok tt;
  closed := false
|}.

Definition full_document : gmap string value :=
  {[ "Open time" := VTimestamp 1; "Close time" := VTimestamp 2;
     "source_file" := VStr "a.csv" ]}.

(** The first query samples a full document; by the next queries the
    collection has been emptied. *)
Definition emptied_meanwhile : script := {|
  listing := Ok [];
  tables := [];
  clock := 1700000000;
  new_client := Ok tt;
  ping := Ok tt;
  inserts := [];
  finds := [ Ok (Some full_document); Ok None; Ok None ];
  index_outcome := Ok tt;
  closed := false
|}.

(** The server answers, but refuses the credentials: the ping raises an
    [OperationFailure], which is not a [ConnectionFailure]. *)
Definition refused : script := {|
  listing := listing two_files;
  tables := tables two_files;
  clock := 1700000000;
  new_client := Ok tt;
  ping := Raise OperationFailure;
  inserts := [];
  finds := [];
  index_outcome := Ok tt;
  closed := false
|}.

(** A directory without any [.csv] file. *)
Definition no_csv : script := {|
  listing := Ok ["notes.txt"; "csv"];
  tables := [];
  clock := 1700000000;
  new_client := Ok tt;
  ping := Ok tt;
  inserts := [];
  finds := [];
  index_outcome := Ok tt;
  closed := false
|}.

(** A directory that cannot be listed. *)
Definition unlistable : script := {|
  listing := Raise OSError;
  tables := [];
  clock := 1700000000;
  new_client := Ok tt;
  ping := Ok tt;
  inserts := [];
  finds := [];
  index_outcome := Ok tt;
  closed := false
|}.

(** [b.csv] cannot be parsed; [a.csv] can. *)
Definition one_unreadable : script := {|
  listing := Ok ["b.csv"; "a.csv"];
  tables :=
    [ ("data/a.csv", Ok [ candle 1 (VStr "10.5") (VInt 7) ]);
      ("data/b.csv", Raise ValueError) ];
  clock := 1700000000;
  new_client := Ok tt;
  ping := Ok tt;
  inserts := [];
  finds := [];
  index_outcome := Ok tt;
  closed := false
|}.

(** The index cannot be created. *)
Definition index_refused : script := {|
  listing := listing two_files;
  tables := tables two_files;
  clock := 1700000000;
  new_client := Ok tt;
  ping := Ok tt;
  inserts := [];
  finds := [ Ok (Some full_document) ];
  index_outcome := Raise OperationFailure;
  closed := false
|}.

(** The server cannot be reached. *)
Definition unreachable : script := {|
  listing := listing two_files;
  tables := tables two_files;
  clock := 1700000000;
  new_client := Ok tt;
  ping := Raise ConnectionFailure;
  inserts := [];
  finds := [];
  index_outcome := Ok tt;
  closed := false
|}.

(** The operator interrupts the run during the first insertion. *)
Definition interrupted : script := {|
  listing := listing two_files;
  tables := tables two_files;
  clock := 1700000000;
  new_client := Ok tt;
  ping := Ok tt;
  inserts := [ Raise KeyboardInterrupt ];
  finds := [];
  index_outcome := Ok tt;
  closed := false
|}.

(** A store that accepts every document, over a world without state. *)
Definition accepting : Collaborators unit := {|
  os_listdir := fun _ w => (Ok [], w);
  pd_read_csv := fun _ _ w => (Raise OSError, w);
  datetime_now := fun w => (0%Z, w);
  MongoClient := fun _ _ w => (Ok tt, w);
  admin_ping := fun w => (Ok tt, w);
  insert_many := fun batch _ w =>
    (Ok {| inserted_ids := map Z.of_nat (seq 0 (length batch)) |}, w);
  find_limit_1 := fun w => (Ok None, w);
  create_index := fun _ w => (Ok tt, w);
  client_close := fun w => w
|}.

End Examples.

(** * Properties *)

(** ** Pure code in the error monad *)

Lemma rbind_Ok {A B} (r : result A) (k : A -> result B) b :
  rbind r k = Ok b -> exists a, r = Ok a /\ k a = Ok b.
Proof. destruct r as [a|e]; simpl; [eauto | discriminate]. Qed.

Lemma rbind_Raise {A B} (r : result A) (k : A -> result B) e :
  rbind r k = Raise e -> r = Raise e \/ exists a, r = Ok a /\ k a = Raise e.
Proof. destruct r as [a|e']; simpl; [eauto | intros [= ->]; auto]. Qed.

Section ResultFacts.
Context {A B : Type}.

(** [rmap] applies [f] to the elements in order and succeeds when [f] does
    on each of them. *)
Lemma rmap_Forall2 (f : A -> result B) l bs :
  rmap f l = Ok bs -> Forall2 (fun a b => f a = Ok b) l bs.
Proof.
  revert bs. induction l as [|a l IH]; simpl; intros bs H.
  - injection H as <-. constructor.
  - apply rbind_Ok in H as (b & Hb & H).
    apply rbind_Ok in H as (bs' & Hbs & H).
    injection H as <-. constructor; auto.
Qed.

Lemma rmap_length (f : A -> result B) l bs :
  rmap f l = Ok bs -> length bs = length l.
Proof. intros H%rmap_Forall2. symmetry. eapply Forall2_length, H. Qed.

Lemma rmap_total (f : A -> result B) l :
  Forall (fun a => is_Ok (f a) = true) l -> exists bs, rmap f l = Ok bs.
Proof.
  induction 1 as [|a l Ha _ [bs IH]]; simpl; [eauto |].
  destruct (f a) as [b|]; [| discriminate]. simpl. rewrite IH. simpl. eauto.
Qed.

Lemma rmap_Raise (f : A -> result B) l e :
  rmap f l = Raise e -> exists a, a ∈ l /\ f a = Raise e.
Proof.
  induction l as [|a l IH]; simpl; [discriminate |]. intros H.
  apply rbind_Raise in H as [H | (b & _ & H)].
  - exists a. split; [left | done].
  - apply rbind_Raise in H as [H | (bs & _ & H)]; [| discriminate].
    destruct (IH H) as (a' & Hin & Ha'). exists a'. split; [by right | done].
Qed.

End ResultFacts.

(** ** The text of numbers *)

Module TextFacts.
Import Py.

(** [float] strips the blanks of the C library and reads a decimal
    literal, with single underscores between digits; a value out of range
    is an infinity. *)
Example float_of_ascii_text :
  float_of_string " 12 " = Some Examples.twelve /\
  float_of_string "1_2." = Some Examples.twelve /\
  float_of_string "1.2e1" = Some Examples.twelve /\
  float_of_string "-Infinity" = Some neg_inf /\
  float_of_string "1e400" = Some inf /\
  float_of_string "NaN" = Some nan /\
  float_of_string "1__2" = None /\
  float_of_string "1 2" = None /\
  float_of_string "" = None.
Proof. repeat split; vm_compute; reflexivity. Qed.

(** In a text that is not ASCII, [float] and [int] read the decimal digits
    and the spaces of Unicode: full-width or Arabic-Indic digits are
    digits, a no-break space is stripped. The file separator, which
    [str.isspace] accepts, is not. *)
Example float_of_unicode_text :
  float_of_string "１２" = Some Examples.twelve /\
  float_of_string "١٢" = Some Examples.twelve /\
  float_of_string (Examples.no_break_space ++ "12") = Some Examples.twelve /\
  float_of_string ("１２" ++ Examples.no_break_space) = Some Examples.twelve /\
  int_of_string "１２" = Some 12%Z /\
  float_of_string "１２€" = None /\
  float_of_string (Examples.file_separator ++ "12") = None /\
  float_of_string (Examples.file_separator ++ "１２") = None.
Proof. repeat split; vm_compute; reflexivity. Qed.

End TextFacts.

(** ** RowNormalizer *)

Module NormalizerFacts.
Import Py Normalizer.

Lemma coerce_float_unfold (rec : gmap string value) field :
  coerce_float rec field =
  match rec !! field with
  | Some v => rbind (float_coerced v) (fun v' => Ok (<[field := v']> rec))
  | None => Ok rec
  end.
Proof.
  unfold coerce_float, float_coerced. destruct (rec !! field) as [v|] eqn:E; [|done].
  destruct (pd_notna v); simpl.
  - destruct (py_float v) as [f|e]; simpl; [done |].
    by destruct (is_ValueError_or_TypeError e).
  - by rewrite insert_id.
Qed.

Lemma coerce_int_unfold (rec : gmap string value) field :
  coerce_int rec field =
  match rec !! field with
  | Some v => rbind (int_coerced v) (fun v' => Ok (<[field := v']> rec))
  | None => Ok rec
  end.
Proof.
  unfold coerce_int, int_coerced. destruct (rec !! field) as [v|] eqn:E; [|done].
  destruct (pd_notna v); simpl.
  - destruct (py_int v) as [f|e]; simpl; [done |].
    by destruct (is_ValueError_or_TypeError e).
  - by rewrite insert_id.
Qed.

(** A coercion step changes the field it is given and nothing else. *)
Lemma coerce_float_lookup (rec rec' : gmap string value) field k :
  coerce_float rec field = Ok rec' ->
  (k <> field -> rec' !! k = rec !! k) /\
  (forall v, rec !! field = Some v ->
     exists v', float_coerced v = Ok v' /\ rec' !! field = Some v') /\
  (rec !! field = None -> rec' = rec).
Proof.
  rewrite coerce_float_unfold. destruct (rec !! field) as [v|] eqn:E.
  - intros (v' & Hv' & [= <-])%rbind_Ok. split; [| split].
    + intros Hne. by rewrite lookup_insert_ne.
    + intros ? [= <-]. exists v'. by rewrite lookup_insert_eq.
    + discriminate.
  - intros [= <-]. split; [done | split; [discriminate | done]].
Qed.

Lemma coerce_int_lookup (rec rec' : gmap string value) field k :
  coerce_int rec field = Ok rec' ->
  (k <> field -> rec' !! k = rec !! k) /\
  (forall v, rec !! field = Some v ->
     exists v', int_coerced v = Ok v' /\ rec' !! field = Some v') /\
  (rec !! field = None -> rec' = rec).
Proof.
  rewrite coerce_int_unfold. destruct (rec !! field) as [v|] eqn:E.
  - intros (v' & Hv' & [= <-])%rbind_Ok. split; [| split].
    + intros Hne. by rewrite lookup_insert_ne.
    + intros ? [= <-]. exists v'. by rewrite lookup_insert_eq.
    + discriminate.
  - intros [= <-]. split; [done | split; [discriminate | done]].
Qed.

(** The loop over the numeric fields leaves every other field alone. *)
Lemma fold_coerce_other fields : forall (rec rec' : gmap string value) k,
  rfold coerce_float fields rec = Ok rec' -> k ∉ fields -> rec' !! k = rec !! k.
Proof.
  induction fields as [|f fields IH]; simpl; intros rec rec' k H Hk.
  - by injection H as <-.
  - apply rbind_Ok in H as (rec1 & H1 & H).
    apply not_elem_of_cons in Hk as [Hne Hk].
    rewrite (IH _ _ _ H Hk).
    apply (coerce_float_lookup _ _ _ k) in H1 as (H1 & _). auto.
Qed.

(** Each listed field that is present is coerced once. *)
Lemma fold_coerce_field fields : forall (rec rec' : gmap string value) k v,
  NoDup fields -> k ∈ fields ->
  rfold coerce_float fields rec = Ok rec' -> rec !! k = Some v ->
  exists v', float_coerced v = Ok v' /\ rec' !! k = Some v'.
Proof.
  induction fields as [|f fields IH]; simpl; intros rec rec' k v Hnd Hk H Hv.
  - by apply elem_of_nil in Hk.
  - apply rbind_Ok in H as (rec1 & H1 & H).
    apply NoDup_cons in Hnd as [Hf Hnd].
    destruct (decide (k = f)) as [->|Hne].
    + apply (coerce_float_lookup _ _ _ f) in H1 as (_ & H1 & _).
      destruct (H1 _ Hv) as (v' & Hv' & Hl). exists v'. split; [done |].
      by rewrite (fold_coerce_other _ _ _ _ H Hf).
    + apply elem_of_cons in Hk as [?|Hk]; [done |].
      apply (coerce_float_lookup _ _ _ k) in H1 as (H1 & _).
      apply (IH rec1 rec' k v); auto. by rewrite H1.
Qed.

Lemma fold_coerce_absent fields : forall (rec rec' : gmap string value) k,
  rfold coerce_float fields rec = Ok rec' -> rec !! k = None -> rec' !! k = None.
Proof.
  induction fields as [|f fields IH]; simpl; intros rec rec' k H Hk.
  - by injection H as <-.
  - apply rbind_Ok in H as (rec1 & H1 & H). apply (IH _ _ _ H).
    destruct (decide (k = f)) as [->|Hne].
    + apply (coerce_float_lookup _ _ _ f) in H1 as (_ & _ & H1). by rewrite H1.
    + apply (coerce_float_lookup _ _ _ k) in H1 as (H1 & _). by rewrite H1.
Qed.

Lemma numeric_fields_NoDup : NoDup numeric_fields.
Proof. apply (bool_decide_unpack _). vm_compute. exact I. Qed.

Lemma trades_is_numeric : "Number of trades" ∈ numeric_fields.
Proof. apply (bool_decide_unpack _). vm_compute. exact I. Qed.

(** The only exceptions [float] and [int] raise are the three below, so the
    only one to pass [except (ValueError, TypeError)] is [OverflowError]. *)
Lemma py_float_raises v e :
  py_float v = Raise e -> e = ValueError \/ e = TypeError \/ e = OverflowError.
Proof.
  unfold py_float, float_of_int. intros H.
  repeat case_match; simplify_eq; auto.
Qed.

Lemma py_int_raises v e :
  py_int v = Raise e -> e = ValueError \/ e = TypeError \/ e = OverflowError.
Proof.
  unfold py_int, int_of_float. intros H.
  repeat case_match; simplify_eq; auto.
Qed.

Lemma float_coerced_raises v e : float_coerced v = Raise e -> e = OverflowError.
Proof.
  unfold float_coerced. destruct (pd_notna v); [| discriminate].
  destruct (py_float v) as [f|e'] eqn:E; simpl; [discriminate |].
  apply py_float_raises in E as [-> | [-> | ->]]; simpl; congruence.
Qed.

Lemma int_coerced_raises v e : int_coerced v = Raise e -> e = OverflowError.
Proof.
  unfold int_coerced. destruct (pd_notna v); [| discriminate].
  destruct (py_int v) as [f|e'] eqn:E; simpl; [discriminate |].
  apply py_int_raises in E as [-> | [-> | ->]]; simpl; congruence.
Qed.

Lemma coerce_float_raises (rec : gmap string value) field e :
  coerce_float rec field = Raise e -> e = OverflowError.
Proof.
  rewrite coerce_float_unfold. destruct (rec !! field) as [v|]; [| discriminate].
  intros [H | (v' & _ & H)]%rbind_Raise; [| discriminate].
  by apply float_coerced_raises in H.
Qed.

Lemma coerce_int_raises (rec : gmap string value) field e :
  coerce_int rec field = Raise e -> e = OverflowError.
Proof.
  rewrite coerce_int_unfold. destruct (rec !! field) as [v|]; [| discriminate].
  intros [H | (v' & _ & H)]%rbind_Raise; [| discriminate].
  by apply int_coerced_raises in H.
Qed.

Lemma fold_coerce_raises fields : forall (rec : gmap string value) e,
  rfold coerce_float fields rec = Raise e -> e = OverflowError.
Proof.
  induction fields as [|f fields IH]; simpl; intros rec e H; [discriminate |].
  apply rbind_Raise in H as [H | (rec1 & _ & H)]; eauto using coerce_float_raises.
Qed.

(** Whenever normalisation raises, it raises [OverflowError]. *)
Lemma prepare_record_raises (rec : gmap string value) e :
  prepare_record rec = Raise e -> e = OverflowError.
Proof.
  unfold prepare_record.
  intros [H | (rec1 & _ & H)]%rbind_Raise;
    eauto using fold_coerce_raises, coerce_int_raises.
Qed.

Lemma prepare_raises df e :
  prepare_data_for_mongodb df = Raise e -> e = OverflowError.
Proof.
  intros (rec & _ & H)%rmap_Raise. by apply prepare_record_raises in H.
Qed.

(** When normalisation returns, it returns one record per row. *)
Lemma prepare_length df records :
  prepare_data_for_mongodb df = Ok records -> length records = length df.
Proof. apply rmap_length. Qed.

(** A value that fails the first coercion with [ValueError] or [TypeError]
    is replaced by [None]. *)
Lemma float_coerced_failure v e :
  pd_notna v = true -> py_float v = Raise e ->
  is_ValueError_or_TypeError e = true -> float_coerced v = Ok VNone.
Proof. unfold float_coerced. intros -> -> He. simpl. by rewrite He. Qed.

(** C3: a table of two rows whose second row has an infinite
    ['Number of trades'] (the cell [inf] of a CSV file): normalisation
    returns no record list at all, [int(inf)] raising an [OverflowError]
    that [except (ValueError, TypeError)] lets through. *)
Theorem prepare_drops_table_on_infinite_trades :
  prepare_data_for_mongodb
    [ {[ "Number of trades" := VFloat (S754_finite false 5629499534213120 (-49)) ]};
      {[ "Number of trades" := VFloat inf ]} ]
  = Raise OverflowError.
Proof. vm_compute. reflexivity. Qed.

(** C4: a row whose ['Volume'] is not a number and whose
    ['Number of trades'] is infinite: the failed coercion of ['Volume'] is
    absorbed, but the [OverflowError] of [int(inf)] escapes
    [prepare_data_for_mongodb]. *)
Theorem overflow_escapes_prepare :
  float_coerced (VStr "abc") = Ok VNone /\
  prepare_data_for_mongodb
    [ {[ "Volume" := VStr "abc"; "Number of trades" := VFloat inf ]} ]
  = Raise OverflowError.
Proof. split; vm_compute; reflexivity. Qed.

(** C5, as stated, fails: the text [nan] is coerced to a float, the
    [pd.notna] guard then skips the integer coercion, and the field is left
    holding the float [NaN], not null. *)
Lemma trades_nan_left_float :
  py_float (VStr "nan") = Ok nan /\
  prepare_data_for_mongodb [ {[ "Number of trades" := VStr "nan" ]} ]
  = Ok [ {[ "Number of trades" := VFloat nan ]} ] /\
  is_float (VFloat nan) = true /\
  VFloat nan <> VNone.
Proof. repeat split; try (vm_compute; reflexivity). discriminate. Qed.

(** C5, amended: in every record a normalisation returns, a
    ['Number of trades'] that was coerced to a float [f] other than an
    infinity holds, when [f] is [NaN], that float unchanged (the integer
    coercion is skipped), and otherwise the integer [int(f)], which always
    exists. *)
Theorem trades_after_normalization df records i (row rec : gmap string value) v f :
  prepare_data_for_mongodb df = Ok records ->
  df !! i = Some row -> records !! i = Some rec ->
  row !! "Number of trades" = Some v ->
  pd_notna v = true -> py_float v = Ok f -> isinf f = false ->
  if isnan f then rec !! "Number of trades" = Some (VFloat f)
  else exists z, int_of_float f = Ok z /\ rec !! "Number of trades" = Some (VInt z).
Proof.
  intros Hprep Hrow Hrec Hv Hna Hf Hinf.
  apply rmap_Forall2 in Hprep.
  pose proof (Forall2_lookup_lr _ _ _ _ _ _ Hprep Hrow Hrec) as H.
  unfold prepare_record in H. apply rbind_Ok in H as (rec1 & H1 & H2).
  destruct (fold_coerce_field _ _ _ _ _ numeric_fields_NoDup trades_is_numeric H1 Hv)
    as (v' & Hv' & Hl1).
  unfold float_coerced in Hv'. rewrite Hna, Hf in Hv'. simpl in Hv'.
  injection Hv' as <-.
  apply (coerce_int_lookup _ _ _ "Number of trades") in H2 as (_ & H2 & _).
  destruct (H2 _ Hl1) as (v'' & Hv'' & Hl2).
  destruct f as [s| s | |s m e]; simpl in *; try discriminate.
  - injection Hv'' as <-. eauto.
  - by injection Hv'' as <-.
  - injection Hv'' as <-. eauto.
Qed.

Lemma trades_after_normalization_witness :
  prepare_data_for_mongodb [ {[ "Number of trades" := VStr "12.75" ]} ]
    = Ok [ {[ "Number of trades" := VInt 12 ]} ] /\
  py_float (VStr "12.75") = Ok (S754_finite false 7177611906121728 (-49)) /\
  exists z, int_of_float (S754_finite false 7177611906121728 (-49)) = Ok z /\
            ({[ "Number of trades" := VInt 12 ]} : gmap string value)
              !! "Number of trades" = Some (VInt z).
Proof.
  split; [vm_compute; reflexivity |]. split; [vm_compute; reflexivity |].
  apply (trades_after_normalization
           [ {[ "Number of trades" := VStr "12.75" ]} ]
           [ {[ "Number of trades" := VInt 12 ]} ] 0
           {[ "Number of trades" := VStr "12.75" ]}
           {[ "Number of trades" := VInt 12 ]}
           (VStr "12.75") (S754_finite false 7177611906121728 (-49)));
    vm_compute; reflexivity.
Defined.

End NormalizerFacts.

(** ** The monad of the methods *)

Section MonadFacts.
Context {W : Type}.

Lemma bind_Ok {A B} (m : M W A) (k : A -> M W B) s b s' :
  bind m k s = (Ok b, s') ->
  exists a s1, m s = (Ok a, s1) /\ k a s1 = (Ok b, s').
Proof.
  unfold bind. destruct (m s) as [[a|e] s1]; [eauto | discriminate].
Qed.

Lemma bind_Raise {A B} (m : M W A) (k : A -> M W B) s e s' :
  bind m k s = (Raise e, s') ->
  m s = (Raise e, s') \/ exists a s1, m s = (Ok a, s1) /\ k a s1 = (Raise e, s').
Proof.
  unfold bind. destruct (m s) as [[a|e'] s1]; [eauto | intros [= -> ->]; auto].
Qed.

(** What [try ... except Exception] lets through is not an [Exception]. *)
Lemma try_except_Exception_Raise {A} (m : M W A) (a : A) s e s' :
  try_except m (except_Exception (ret a)) s = (Raise e, s') ->
  m s = (Raise e, s') /\ is_Exception e = false.
Proof.
  unfold try_except, except_Exception, ret.
  destruct (m s) as [[x|e'] s1]; [discriminate |].
  destruct (is_Exception e') eqn:E; [discriminate |]. by intros [= <- <-].
Qed.

Lemma try_except_Exception_Ok {A} (m : M W A) (a : A) s b s' :
  try_except m (except_Exception (ret a)) s = (Ok b, s') ->
  m s = (Ok b, s') \/ exists e, m s = (Raise e, s') /\ is_Exception e = true /\ b = a.
Proof.
  unfold try_except, except_Exception, ret.
  destruct (m s) as [[x|e'] s1]; [intros [= <- <-]; auto |].
  destruct (is_Exception e') eqn:E; [| discriminate].
  intros [= <- <-]. right. eauto.
Qed.

End MonadFacts.

(** ** FileDiscovery and [read_csv_files] *)

Module DiscoveryFacts.
Import Py PyLib Discovery Normalizer Loader NormalizerFacts.

(** The discovered paths are those of the entries ending in [.csv]. *)
Lemma csv_files_of_spec csv_directory listing p :
  p ∈ csv_files_of csv_directory listing <->
  exists file, file ∈ listing /\ endswith file ".csv" = true /\
               p = os_path_join csv_directory file.
Proof.
  unfold csv_files_of. rewrite list_elem_of_In, in_map_iff. split.
  - intros (file & <- & Hin). apply filter_In in Hin as [Hin He].
    exists file. by rewrite list_elem_of_In.
  - intros (file & Hin & He & ->). exists file. split; [done |].
    apply filter_In. by rewrite <- list_elem_of_In.
Qed.

Section Reading.
Context {W : Type} (drv : Collaborators W).

Lemma files_read_app (l1 l2 : list call) :
  files_read (l1 ++ l2) = (files_read l1 ++ files_read l2)%list.
Proof. unfold files_read. apply omap_app. Qed.

(** Reading one file hands exactly that file to [pd.read_csv]. *)
Lemma read_one_file_calls csv_file dataframes s :
  files_read (calls (snd (read_one_file drv csv_file dataframes s))) =
  (files_read (calls s) ++ [csv_file])%list.
Proof.
  unfold read_one_file, try_except, bind, perform, except_Exception, ret.
  destruct (pd_read_csv drv csv_file _ (world s)) as [[df|e] w1]; simpl.
  - destruct (datetime_now drv w1) as [t w2]; simpl.
    by rewrite !files_read_app, <- app_assoc.
  - destruct (is_Exception e); simpl; by rewrite files_read_app.
Qed.

Lemma read_each_calls csv_files : forall dataframes s r s',
  read_each drv csv_files dataframes s = (r, s') -> is_Ok r = true ->
  files_read (calls s') = (files_read (calls s) ++ csv_files)%list.
Proof.
  induction csv_files as [|f rest IH]; simpl; intros dfs s r s' H Hr.
  - injection H as <- <-. by rewrite app_nil_r.
  - unfold bind in H.
    pose proof (read_one_file_calls f dfs s) as Hc.
    destruct (read_one_file drv f dfs s) as [[dfs1|e] s1]; simpl in Hc.
    + rewrite (IH _ _ _ _ H Hr), Hc, <- app_assoc. done.
    + injection H as <- <-. discriminate.
Qed.

(** One turn of the reading loop on a file that parses: the table, tagged
    with the file's base name and the time read after parsing, is appended. *)
Lemma read_one_file_parsed csv_file dataframes s df w1 t w2 :
  pd_read_csv drv csv_file ["Open time"; "Close time"] (world s) = (Ok df, w1) ->
  datetime_now drv w1 = (t, w2) ->
  read_one_file drv csv_file dataframes s =
  (Ok (dataframes ++ [tagged csv_file t df])%list,
   {| world := w2; mongo_uri := mongo_uri s; client := client s;
      collection := collection s;
      calls := (calls s ++ [Call_read_csv csv_file; Call_now])%list |}).
Proof.
  intros Hr Hn. unfold read_one_file, try_except, bind, perform, ret.
  rewrite Hr. simpl. rewrite Hn. simpl. by rewrite <- app_assoc.
Qed.

(** One turn of the reading loop on a file that does not parse. *)
Lemma read_one_file_failed csv_file dataframes s e w1 :
  pd_read_csv drv csv_file ["Open time"; "Close time"] (world s) = (Raise e, w1) ->
  read_one_file drv csv_file dataframes s =
  (if is_Exception e then Ok dataframes else Raise e,
   {| world := w1; mongo_uri := mongo_uri s; client := client s;
      collection := collection s;
      calls := (calls s ++ [Call_read_csv csv_file])%list |}).
Proof.
  intros Hr. unfold read_one_file, try_except, bind, perform, except_Exception, ret.
  rewrite Hr. simpl. by destruct (is_Exception e).
Qed.

(** What the reading loop lets through is not an [Exception]. *)
Lemma read_each_raises csv_files : forall dataframes s e s',
  read_each drv csv_files dataframes s = (Raise e, s') -> is_Exception e = false.
Proof.
  induction csv_files as [|f rest IH]; simpl; intros dfs s e s' H; [discriminate |].
  apply bind_Raise in H as [H | (a & s1 & _ & H)]; [| eauto].
  by apply try_except_Exception_Raise in H as [_ H].
Qed.

(** The tables the reading loop appends are those of the files that
    parsed, in order, each tagged with its own file and time. *)
Lemma read_each_parsed csv_files : forall dataframes s dataframes' s',
  read_each drv csv_files dataframes s = (Ok dataframes', s') ->
  exists found,
    parsed drv csv_files (world s) found (world s') /\
    dataframes' =
    (dataframes ++ map (fun '(csv_file, t, df) => tagged csv_file t df) found)%list.
Proof.
  induction csv_files as [|f rest IH]; simpl; intros dfs s dfs' s' H.
  - injection H as <- <-. exists []. split; [constructor | by rewrite app_nil_r].
  - apply bind_Ok in H as (dfs1 & s1 & H1 & H).
    destruct (pd_read_csv drv f ["Open time"; "Close time"] (world s))
      as [[df|e] w1] eqn:Er.
    + destruct (datetime_now drv w1) as [t w2] eqn:En.
      rewrite (read_one_file_parsed _ _ _ _ _ _ _ Er En) in H1.
      injection H1 as <- <-.
      destruct (IH _ _ _ _ H) as (found & Hp & ->). simpl in Hp.
      exists ((f, t, df) :: found). split; [by econstructor |].
      simpl. by rewrite <- app_assoc.
    + rewrite (read_one_file_failed _ _ _ _ _ Er) in H1.
      destruct (is_Exception e) eqn:Ee; [| discriminate].
      injection H1 as <- <-.
      destruct (IH _ _ _ _ H) as (found & Hp & ->). simpl in Hp.
      exists found. split; [by eapply parsed_skip | done].
Qed.

(** The tables [read_csv_files] returns for a directory that can be listed. *)
Lemma read_csv_files_parsed csv_directory s listing w1 dataframes s' :
  os_listdir drv csv_directory (world s) = (Ok listing, w1) ->
  read_csv_files drv csv_directory s = (Ok dataframes, s') ->
  exists found,
    parsed drv (csv_files_of csv_directory listing) w1 found (world s') /\
    dataframes = map (fun '(csv_file, t, df) => tagged csv_file t df) found.
Proof.
  intros Hl H. unfold read_csv_files, try_except, bind, perform in H.
  rewrite Hl in H. simpl in H.
  destruct (csv_files_of csv_directory listing) as [|f rest] eqn:E.
  - injection H as <- <-. exists []. split; [constructor | done].
  - match type of H with context [read_each ?d ?l ?a ?s0] =>
      destruct (read_each d l a s0) as [[dfs|e] s2] eqn:E2 end.
    + injection H as <- <-. apply read_each_parsed in E2 as (found & Hp & ->).
      by exists found.
    + apply read_each_raises in E2 as He. unfold except_Exception in H.
      rewrite He in H. discriminate.
Qed.

(** The files [read_csv_files] goes on to read are the discovered ones, in
    the order of the listing. *)
Lemma read_csv_files_calls csv_directory s listing w1 r s' :
  os_listdir drv csv_directory (world s) = (Ok listing, w1) ->
  read_csv_files drv csv_directory s = (r, s') -> is_Ok r = true ->
  files_read (calls s') =
  (files_read (calls s) ++ csv_files_of csv_directory listing)%list.
Proof.
  intros Hl H Hr. unfold read_csv_files, try_except, bind, perform in H.
  rewrite Hl in H. simpl in H.
  destruct (csv_files_of csv_directory listing) as [|f rest] eqn:E.
  - injection H as <- <-. simpl. by rewrite files_read_app, !app_nil_r.
  - match type of H with context [read_each ?d ?l ?a ?s0] =>
      destruct (read_each d l a s0) as [[dfs|e] s2] eqn:E2 end.
    + injection H as <- <-. apply read_each_calls in E2; [| done].
      rewrite E2. simpl. by rewrite files_read_app, app_nil_r.
    + unfold except_Exception in H.
      pose proof E2 as E3.
      assert (is_Exception e = false) as He. {
        clear H. revert E2. generalize (@nil DataFrame).
        match goal with |- forall l, read_each _ ?fs l ?s0 = _ -> _ =>
          generalize s0; generalize fs end.
        intros fs. induction fs as [|g fs IH]; simpl; intros s0 l H; [discriminate |].
        apply bind_Raise in H as [H | (a & s3 & _ & H)]; [| eauto].
        by apply try_except_Exception_Raise in H as [_ H]. }
      rewrite He in H. injection H as <- <-. discriminate.
Qed.

(** Normalisation leaves the fields outside the numeric set alone. *)
Lemma prepare_record_other (row rec : gmap string value) k :
  prepare_record row = Ok rec -> k ∉ numeric_fields -> rec !! k = row !! k.
Proof.
  unfold prepare_record. intros (rec1 & H1 & H2)%rbind_Ok Hk.
  apply (coerce_int_lookup _ _ _ k) in H2 as (H2 & _).
  rewrite H2.
  - by apply (fold_coerce_other _ _ _ _ H1).
  - intros ->. apply Hk, trades_is_numeric.
Qed.

Lemma prepare_elem_of df records (rec : gmap string value) :
  prepare_data_for_mongodb df = Ok records -> rec ∈ records ->
  exists row, row ∈ df /\ prepare_record row = Ok rec.
Proof.
  intros H%rmap_Forall2 Hin. unfold to_dict_records in H.
  apply list_elem_of_lookup in Hin as [i Hi].
  destruct (Forall2_lookup_r _ _ _ _ _ H Hi) as (row & Hrow & Hp).
  exists row. split; [| done]. apply list_elem_of_lookup. eauto.
Qed.

Lemma tagged_row csv_file t df (row : gmap string value) :
  row ∈ tagged csv_file t df ->
  row !! "source_file" = Some (VStr (os_path_basename csv_file)) /\
  row !! "import_timestamp" = Some (VTimestamp t).
Proof.
  unfold tagged, set_column. rewrite list_elem_of_In, map_map, in_map_iff.
  intros (row0 & <- & _). split.
  - rewrite lookup_insert_ne; [| done]. apply lookup_insert_eq.
  - apply lookup_insert_eq.
Qed.

Lemma filter_sublist {A} (p : A -> bool) (l : list A) :
  List.filter p l `sublist_of` l.
Proof.
  induction l as [|a l IH]; simpl; [constructor |].
  destruct (p a); by constructor.
Qed.

(** C6, as stated, fails: a directory listed as [b.csv], [notes.txt],
    [a.csv] is discovered, and then read, in that order, which is not the
    order of the names. *)
Lemma discovery_keeps_listing_order :
  csv_files_of "data" ["b.csv"; "notes.txt"; "a.csv"]
    = ["data/b.csv"; "data/a.csv"] /\
  sorted_by_name (csv_files_of "data" ["b.csv"; "notes.txt"; "a.csv"]) = false /\
  files_read (calls (snd (read_csv_files Script.driver "data"
                            (init Examples.uri Examples.two_files))))
    = ["data/b.csv"; "data/a.csv"].
Proof. repeat split; vm_compute; reflexivity. Qed.

(** C6, amended: for a directory that [os.listdir] lists, discovery yields
    exactly the joined paths of the entries whose name ends in [.csv], in
    the order of the listing (nothing is sorted), and these are the files
    handed to the reader, in that order. *)
Theorem discovery_in_listing_order csv_directory s listing w1 :
  os_listdir drv csv_directory (world s) = (Ok listing, w1) ->
  (forall p, p ∈ csv_files_of csv_directory listing <->
     exists file, file ∈ listing /\ endswith file ".csv" = true /\
                  p = os_path_join csv_directory file) /\
  (exists names, names `sublist_of` listing /\
     csv_files_of csv_directory listing = map (os_path_join csv_directory) names) /\
  (forall r s', read_csv_files drv csv_directory s = (r, s') -> is_Ok r = true ->
     files_read (calls s') =
     (files_read (calls s) ++ csv_files_of csv_directory listing)%list).
Proof.
  intros Hl. split; [apply csv_files_of_spec |]. split.
  - eexists. split; [apply filter_sublist | reflexivity].
  - intros r s' H Hr. by apply (read_csv_files_calls _ _ _ _ _ _ Hl H).
Qed.

(** C10: the tables [read_csv_files] returns are, in order, those of the
    files that parsed: each is the table [pd.read_csv] gave for its file,
    with as many rows, and every record of it, also after normalisation,
    carries the base name of that very file as [source_file] and, as
    [import_timestamp], the one time the clock gave right after the file was
    parsed. *)
Theorem provenance_uniform_per_file csv_directory s listing w1 dataframes s' :
  os_listdir drv csv_directory (world s) = (Ok listing, w1) ->
  read_csv_files drv csv_directory s = (Ok dataframes, s') ->
  exists found,
    parsed drv (csv_files_of csv_directory listing) w1 found (world s') /\
    Forall2
      (fun '(csv_file, t, df) table =>
         table = tagged csv_file t df /\
         length table = length df /\
         (forall row : gmap string value, row ∈ table ->
            row !! "source_file" = Some (VStr (os_path_basename csv_file)) /\
            row !! "import_timestamp" = Some (VTimestamp t)) /\
         (forall records, prepare_data_for_mongodb table = Ok records ->
            length records = length df /\
            forall rec : gmap string value, rec ∈ records ->
              rec !! "source_file" = Some (VStr (os_path_basename csv_file)) /\
              rec !! "import_timestamp" = Some (VTimestamp t)))
      found dataframes.
Proof.
  intros Hl H.
  destruct (read_csv_files_parsed _ _ _ _ _ _ Hl H) as (found & Hp & ->).
  exists found. split; [done |]. clear.
  induction found as [|[[f t] df] found IH]; simpl; constructor; [| done].
  assert (length (tagged f t df) = length df) as Hlen
    by (unfold tagged, set_column; by rewrite !length_map).
  split; [done |]. split; [done |]. split; [apply tagged_row |].
  intros records Hr. split; [by rewrite (prepare_length _ _ Hr) |].
  intros rec Hrec.
  destruct (prepare_elem_of _ _ _ Hr Hrec) as (row & Hrow & Hpr).
  apply tagged_row in Hrow as [Hs Hi].
  rewrite !(prepare_record_other _ _ _ Hpr); [done | |];
    apply (bool_decide_unpack _); vm_compute; exact I.
Qed.

End Reading.

Lemma discovery_in_listing_order_witness :
  os_listdir Script.driver "data" (world (init Examples.uri Examples.two_files))
    = (Ok ["b.csv"; "notes.txt"; "a.csv"], Examples.two_files) /\
  (exists names, names `sublist_of` ["b.csv"; "notes.txt"; "a.csv"] /\
     csv_files_of "data" ["b.csv"; "notes.txt"; "a.csv"]
       = map (os_path_join "data") names).
Proof.
  split; [reflexivity |].
  apply (discovery_in_listing_order Script.driver "data"
           (init Examples.uri Examples.two_files)
           ["b.csv"; "notes.txt"; "a.csv"] Examples.two_files).
  reflexivity.
Defined.

(** The tables of a scripted run that ends normally are what
    [read_csv_files] returned. *)
Lemma tables_read_Ok (w : Script.script) :
  is_Ok (fst (read_csv_files Script.driver "data" (init Examples.uri w))) = true ->
  read_csv_files Script.driver "data" (init Examples.uri w) =
  (Ok (Examples.tables_read w),
   snd (read_csv_files Script.driver "data" (init Examples.uri w))).
Proof.
  unfold Examples.tables_read.
  destruct (read_csv_files Script.driver "data" (init Examples.uri w))
    as [[dataframes|e] s1]; simpl; [done | discriminate].
Qed.

Lemma provenance_uniform_per_file_witness :
  os_listdir Script.driver "data" (world (init Examples.uri Examples.two_files))
    = (Ok ["b.csv"; "notes.txt"; "a.csv"], Examples.two_files) /\
  length (Examples.tables_read Examples.two_files) = 2 /\
  exists found,
    parsed Script.driver (csv_files_of "data" ["b.csv"; "notes.txt"; "a.csv"])
      Examples.two_files found
      (world (snd (read_csv_files Script.driver "data"
                     (init Examples.uri Examples.two_files)))) /\
    Forall2
      (fun '(csv_file, t, df) table =>
         table = tagged csv_file t df /\
         length table = length df /\
         (forall row : gmap string value, row ∈ table ->
            row !! "source_file" = Some (VStr (os_path_basename csv_file)) /\
            row !! "import_timestamp" = Some (VTimestamp t)) /\
         (forall records, prepare_data_for_mongodb table = Ok records ->
            length records = length df /\
            forall rec : gmap string value, rec ∈ records ->
              rec !! "source_file" = Some (VStr (os_path_basename csv_file)) /\
              rec !! "import_timestamp" = Some (VTimestamp t)))
      found (Examples.tables_read Examples.two_files).
Proof.
  split; [reflexivity |]. split; [vm_compute; reflexivity |].
  apply (provenance_uniform_per_file Script.driver "data"
           (init Examples.uri Examples.two_files)
           ["b.csv"; "notes.txt"; "a.csv"] Examples.two_files
           (Examples.tables_read Examples.two_files)
           (snd (read_csv_files Script.driver "data"
                   (init Examples.uri Examples.two_files))));
    [reflexivity | apply tables_read_Ok; vm_compute; reflexivity].
Defined.

(** In the directory listed as [b.csv], [notes.txt], [a.csv] the rows read
    from [b.csv] carry [b.csv] and the first time of the clock, those read
    from [a.csv] carry [a.csv] and the next time. *)
Example provenance_of_two_files :
  map (map (fun row : gmap string value =>
              (row !! "source_file", row !! "import_timestamp")))
      (Examples.tables_read Examples.two_files)
  = [ [ (Some (VStr "b.csv"), Some (VTimestamp 1700000000)) ];
      [ (Some (VStr "a.csv"), Some (VTimestamp 1700000001));
        (Some (VStr "a.csv"), Some (VTimestamp 1700000001));
        (Some (VStr "a.csv"), Some (VTimestamp 1700000001)) ] ].
Proof. vm_compute. reflexivity. Qed.

End DiscoveryFacts.

(** ** Batches *)

Module BatchFacts.
Import Py PyLib Normalizer Loader.

Section Chunks.
Context {A : Type}.
Implicit Types l : list A.

(** A slice that starts at [j >= 0] and spans [step >= 1]. *)
Lemma py_slice_take_drop l (j step : Z) :
  (0 <= j)%Z -> (1 <= step)%Z ->
  py_slice l j (j + step) = take (Z.to_nat step) (drop (Z.to_nat j) l).
Proof.
  intros Hj Hs. unfold py_slice, clamp_index.
  destruct (Z.ltb_spec j 0) as [?|_]; [lia |].
  destruct (Z.ltb_spec (j + step) 0) as [?|_]; [lia |].
  remember (Z.of_nat (length l)) as n eqn:Hn.
  destruct (Z_le_gt_dec n j) as [Hge|Hlt].
  - assert (length l <= Z.to_nat j)%nat as Hd by lia.
    rewrite (drop_ge l (Z.to_nat j) Hd).
    rewrite (Z.min_r j n), (Z.min_r (j + step) n), Z.sub_diag by lia.
    by destruct (Z.to_nat step).
  - rewrite (Z.min_l j n) by lia.
    destruct (Z_le_gt_dec (j + step) n) as [Hfit|Hover].
    + rewrite Z.min_l by lia. f_equal. lia.
    + rewrite Z.min_r by lia.
      rewrite !take_ge; [done | |]; rewrite length_drop; lia.
Qed.

(** The first [k] slices of width [b] of [l]. *)
Lemma chunks_concat (b : nat) : forall k l,
  (length l <= k * b)%nat ->
  concat (map (fun i => take b (drop (i * b) l)) (seq 0 k)) = l.
Proof.
  induction k as [|k IH]; intros l Hl.
  - destruct l; [done | simpl in Hl; lia].
  - rewrite <- cons_seq, <- fmap_S_seq. simpl.
    rewrite drop_0. change (map ?f (S <$> ?x)) with (map f (map S x)).
    rewrite map_map.
    rewrite <- (take_drop b l) at 2. f_equal.
    rewrite <- (IH (drop b l)) by (rewrite length_drop; lia).
    f_equal. apply map_ext. intros i. by rewrite drop_drop.
Qed.

Lemma chunks_bounds (b : nat) k l :
  (1 <= b)%nat -> ((k - 1) * b < length l)%nat ->
  Forall (fun c : list A => (1 <= length c <= b)%nat)
         (map (fun i => take b (drop (i * b) l)) (seq 0 k)).
Proof.
  intros Hb Hl. apply Forall_forall. intros c Hc.
  apply list_elem_of_In, in_map_iff in Hc as (i & <- & Hi).
  apply in_seq in Hi as [_ Hi]. rewrite length_take, length_drop.
  assert (i * b <= (k - 1) * b)%nat by nia. lia.
Qed.

Lemma batches_of_chunks l (step : Z) :
  (1 <= step)%Z ->
  batches_of l step =
  map (fun i => take (Z.to_nat step) (drop (i * Z.to_nat step) l))
      (seq 0 (steps (len l) step)).
Proof.
  intros Hs. unfold batches_of, py_range, steps.
  destruct (Z.eqb_spec step 0) as [?|_]; [lia |].
  destruct (Z.ltb_spec 0 step) as [_|?]; [| lia].
  rewrite map_map. apply map_ext. intros i.
  rewrite py_slice_take_drop by lia. do 2 f_equal. lia.
Qed.

Lemma steps_bounds (n step : Z) :
  (1 <= step)%Z -> (0 < n)%Z ->
  (Z.of_nat (steps n step - 1) * step < n)%Z /\
  (n <= Z.of_nat (steps n step) * step)%Z.
Proof.
  intros Hs Hn. unfold steps.
  destruct (Z.ltb_spec 0 n) as [_|?]; [| lia].
  assert (0 <= (n - 0 - 1) / step)%Z by (apply Z.div_pos; lia).
  pose proof (Z.mul_div_le (n - 0 - 1) step ltac:(lia)).
  pose proof (Z.mul_succ_div_gt (n - 0 - 1) step ltac:(lia)).
  split.
  - replace (Z.to_nat ((n - 0 - 1) / step + 1) - 1)%nat
      with (Z.to_nat ((n - 0 - 1) / step)) by lia.
    rewrite Z2Nat.id by lia. lia.
  - rewrite Z2Nat.id by lia. lia.
Qed.

(** The batches of a non-empty list: each has between one and [step]
    elements, and together they are the list. *)
Lemma batches_of_spec l (step : Z) :
  l <> [] -> (1 <= step)%Z ->
  Forall (fun c : list A => (1 <= len c <= step)%Z) (batches_of l step) /\
  concat (batches_of l step) = l.
Proof.
  intros Hl Hs. rewrite batches_of_chunks by done.
  assert (0 < len l)%Z as Hn by (destruct l; [done | unfold len; simpl; lia]).
  destruct (steps_bounds (len l) step Hs Hn) as [H1 H2]. unfold len in *.
  split.
  - eapply Forall_impl; [apply chunks_bounds |].
    + lia.
    + nia.
    + simpl. intros c Hc. lia.
  - apply chunks_concat. nia.
Qed.

End Chunks.

Section Insertion.
Context {W : Type} (drv : Collaborators W).

Lemma batches_inserted_app (l1 l2 : list call) :
  batches_inserted (l1 ++ l2) = (batches_inserted l1 ++ batches_inserted l2)%list.
Proof. unfold batches_inserted. apply omap_app. Qed.

(** One turn of the loop hands its batch to [insert_many], unless the
    collection is missing, in which case it raises. *)
Lemma insert_batch_calls batch total s r s' :
  insert_batch drv batch total s = (r, s') ->
  batches_inserted (calls s') = (batches_inserted (calls s) ++ [batch])%list \/
  (batches_inserted (calls s') = batches_inserted (calls s) /\ is_Ok r = false).
Proof.
  unfold insert_batch, try_except, bind, on_collection, perform, ret,
    except_BulkWriteError.
  destruct (collection s); simpl.
  - destruct (insert_many drv batch false (world s)) as [[res|e] w1]; simpl.
    + intros [= <- <-]. left. simpl. by rewrite batches_inserted_app.
    + destruct e; intros [= <- <-]; left; simpl; by rewrite batches_inserted_app.
  - intros [= <- <-]. right. done.
Qed.

Lemma insert_batches_calls (records : list record) batch_size js :
  forall total s r s',
  insert_batches drv records batch_size js total s = (r, s') ->
  exists passed,
    batches_inserted (calls s') = (batches_inserted (calls s) ++ passed)%list /\
    passed `prefix_of` map (fun j => py_slice records j (j + batch_size)) js /\
    (is_Ok r = true ->
     passed = map (fun j => py_slice records j (j + batch_size)) js).
Proof.
  induction js as [|j js IH]; simpl; intros total s r s' H.
  - injection H as <- <-. exists []. by rewrite app_nil_r.
  - unfold bind in H.
    destruct (insert_batch drv _ total s) as [[total1|e] s1] eqn:E.
    + apply insert_batch_calls in E as [E | [_ E]]; [| discriminate].
      destruct (IH _ _ _ _ H) as (passed & Hc & Hp & Hall).
      exists (py_slice records j (j + batch_size) :: passed). split; [| split].
      * rewrite Hc, E, <- app_assoc. done.
      * by apply prefix_cons.
      * intros Hr. by rewrite (Hall Hr).
    + injection H as <- <-.
      apply insert_batch_calls in E as [E | [E _]].
      * exists [py_slice records j (j + batch_size)]. split; [done |].
        split; [| discriminate]. apply prefix_cons, prefix_nil.
      * exists []. rewrite app_nil_r. split; [done |].
        split; [apply prefix_nil | discriminate].
Qed.


(** C2: when [insert_many] raises a [BulkWriteError] carrying E write
    errors for a batch of B records, the turn of the loop ends normally with
    the total increased by B - E, and the loop goes on with the next
    batch. *)
Theorem bulk_write_error_counts (records : list record) batch_size j js
    total s details w1 :
  collection s = true ->
  insert_many drv (py_slice records j (j + batch_size)) false (world s)
    = (Raise (BulkWriteError details), w1) ->
  let batch := py_slice records j (j + batch_size) in
  let s1 := {| world := w1; mongo_uri := mongo_uri s; client := client s;
               collection := collection s;
               calls := (calls s ++ [Call_insert_many batch false])%list |} in
  let total1 := (total + (len batch - len (writeErrors details)))%Z in
  insert_batch drv batch total s = (Ok total1, s1) /\
  insert_batches drv records batch_size (j :: js) total s
    = insert_batches drv records batch_size js total1 s1.
Proof.
  intros Hc Hi. destruct s as [w u c col tr]. simpl in *. subst col.
  assert (insert_batch drv (py_slice records j (j + batch_size)) total
            (Build_state w u c true tr)
          = (Ok (total + (len (py_slice records j (j + batch_size))
                          - len (writeErrors details)))%Z,
             Build_state w1 u c true
               (tr ++ [Call_insert_many (py_slice records j (j + batch_size)) false])%list))
    as H.
  { unfold insert_batch, try_except, bind, on_collection, perform. simpl.
    rewrite Hi. reflexivity. }
  split; [done |]. unfold bind. by rewrite H.
Qed.

End Insertion.

Lemma bulk_write_error_counts_witness :
  collection (Examples.connected Examples.one_rejected) = true /\
  fst (insert_batch Script.driver (py_slice Examples.three_records 0 (0 + 2)) 0
         (Examples.connected Examples.one_rejected)) = Ok 1%Z.
Proof.
  split; [reflexivity |].
  destruct (bulk_write_error_counts Script.driver Examples.three_records 2 0 [2%Z] 0
              (Examples.connected Examples.one_rejected)
              {| writeErrors := [ {| we_index := 0; we_code := 11000 |} ];
                 nInserted := 1 |}
              (snd (insert_many Script.driver
                      (py_slice Examples.three_records 0 (0 + 2)) false
                      Examples.one_rejected)))
    as [H _]; [reflexivity | vm_compute; reflexivity |].
  rewrite H. vm_compute. reflexivity.
Defined.

End BatchFacts.

(** ** The load as a whole *)

Module LoaderFacts.
Import Py PyLib Discovery Normalizer Loader NormalizerFacts.

Section Frames.
Context {W : Type}.

Lemma frames_ret {A} (a : A) : frames (@ret W A a).
Proof. intros s. simpl. repeat split. exists []. by rewrite app_nil_r. Qed.

Lemma frames_lift {A} (r : result A) : frames (@lift W A r).
Proof. intros s. simpl. repeat split. exists []. by rewrite app_nil_r. Qed.

Lemma frames_get : frames (@get W).
Proof. intros s. simpl. repeat split. exists []. by rewrite app_nil_r. Qed.

Lemma frames_record_call c : frames (@record_call W c).
Proof. intros s. simpl. repeat split. by exists [c]. Qed.

Lemma frames_perform {A} c (op : W -> result A * W) : frames (perform c op).
Proof.
  intros s. unfold perform. destruct (op (world s)) as [r w1]. simpl.
  repeat split. by exists [c].
Qed.

Lemma frames_on_collection {A} (m : M W A) : frames m -> frames (on_collection m).
Proof.
  intros Hm s. unfold on_collection. pose proof (Hm s) as H.
  destruct (collection s) eqn:E.
  - exact H.
  - simpl. split; [done |]. split; [done |]. split; [done |].
    exists []. by rewrite app_nil_r.
Qed.

Lemma frames_step {A} (s s1 : state W) (m : M W A) :
  (client s1 = client s /\ collection s1 = collection s /\
   mongo_uri s1 = mongo_uri s /\ exists new, calls s1 = (calls s ++ new)%list) ->
  frames m ->
  client (snd (m s1)) = client s /\ collection (snd (m s1)) = collection s /\
  mongo_uri (snd (m s1)) = mongo_uri s /\
  exists new, calls (snd (m s1)) = (calls s ++ new)%list.
Proof.
  intros (H1 & H2 & H3 & new1 & H4) Hm.
  destruct (Hm s1) as (K1 & K2 & K3 & new2 & K4).
  repeat split; try congruence.
  exists (new1 ++ new2)%list. by rewrite K4, H4, app_assoc.
Qed.

Lemma frames_bind {A B} (m : M W A) (k : A -> M W B) :
  frames m -> (forall a, frames (k a)) -> frames (bind m k).
Proof.
  intros Hm Hk s. unfold bind. pose proof (Hm s) as H.
  destruct (m s) as [[a|e] s1]; simpl in *; [| done].
  by apply frames_step.
Qed.

Lemma frames_try_except {A} (m : M W A) handler :
  frames m -> (forall e h, handler e = Some h -> frames h) ->
  frames (try_except m handler).
Proof.
  intros Hm Hh s. unfold try_except. pose proof (Hm s) as H.
  destruct (m s) as [[a|e] s1]; simpl in *; [done |].
  destruct (handler e) as [h|] eqn:E; [| done].
  apply frames_step; eauto.
Qed.

Lemma frames_except_Exception {A} (m h : M W A) :
  frames m -> frames h -> frames (try_except m (except_Exception h)).
Proof.
  intros Hm Hh. apply frames_try_except; [done |]. unfold except_Exception.
  intros e h'. destruct (is_Exception e); [by intros [= <-] | discriminate].
Qed.

Lemma frames_except_BulkWriteError {A} (m : M W A) h :
  frames m -> (forall d, frames (h d)) ->
  frames (try_except m (except_BulkWriteError h)).
Proof.
  intros Hm Hh. apply frames_try_except; [done |]. unfold except_BulkWriteError.
  intros e h'. destruct e; try discriminate. by intros [= <-].
Qed.

Lemma bulk_free_ret {A} (a : A) : bulk_free (@ret W A a).
Proof. intros s e s'. discriminate. Qed.

Lemma bulk_free_record_call c : bulk_free (@record_call W c).
Proof. intros s e s'. discriminate. Qed.

Lemma bulk_free_bind {A B} (m : M W A) (k : A -> M W B) :
  bulk_free m -> (forall a, bulk_free (k a)) -> bulk_free (bind m k).
Proof.
  intros Hm Hk s e s' [H | (a & s1 & _ & H)]%bind_Raise; [by eapply Hm |].
  by eapply Hk.
Qed.

Lemma bulk_free_except_Exception {A} (m : M W A) (a : A) :
  bulk_free (try_except m (except_Exception (ret a))).
Proof.
  intros s e s' [_ H]%try_except_Exception_Raise. by destruct e.
Qed.

Lemma bulk_free_except_BulkWriteError {A} (m : M W A) (h : bulk_details -> A) :
  bulk_free (try_except m (except_BulkWriteError (fun d => ret (h d)))).
Proof.
  intros s e s'. unfold try_except, except_BulkWriteError, ret.
  destruct (m s) as [[a|e'] s1]; [discriminate |].
  destruct e'; intros [= <- <-]; done.
Qed.

End Frames.

Create HintDb frames.
Create HintDb bulk_free.

#[local] Hint Resolve frames_ret frames_lift frames_get frames_record_call
  frames_perform frames_on_collection frames_bind frames_except_Exception
  frames_except_BulkWriteError : frames.

#[local] Hint Resolve bulk_free_ret bulk_free_record_call bulk_free_bind
  bulk_free_except_Exception bulk_free_except_BulkWriteError : bulk_free.

Section Load.
Context {W : Type} (drv : Collaborators W).

Lemma frames_read_each csv_files : forall dataframes,
  frames (read_each drv csv_files dataframes).
Proof.
  induction csv_files as [|f rest IH]; simpl; intros dfs; [auto with frames |].
  apply frames_bind; [| done]. unfold read_one_file.
  apply frames_except_Exception; [| auto with frames].
  apply frames_bind; [auto with frames |]. intros df.
  apply frames_bind; auto with frames.
Qed.

Lemma frames_read_csv_files csv_directory :
  frames (read_csv_files drv csv_directory).
Proof.
  unfold read_csv_files. apply frames_except_Exception; [| auto with frames].
  apply frames_bind; [auto with frames |]. intros listing.
  destruct (csv_files_of csv_directory listing);
    [auto with frames | apply frames_read_each].
Qed.

Lemma frames_index_if_present field index_info :
  frames (index_if_present drv field index_info).
Proof.
  unfold index_if_present. apply frames_bind; [auto with frames |]. intros doc.
  destruct (py_in field (default ∅ doc)); auto 6 with frames.
Qed.

Lemma frames_create_indexes : frames (create_indexes drv).
Proof.
  unfold create_indexes, create_indexes_body.
  apply frames_except_Exception; [| auto with frames].
  repeat (apply frames_bind; [apply frames_index_if_present | intros ?]).
  auto with frames.
Qed.

Lemma frames_insert_batch batch total : frames (insert_batch drv batch total).
Proof. unfold insert_batch. auto 8 with frames. Qed.

Lemma frames_insert_batches records batch_size js : forall total,
  frames (insert_batches drv records batch_size js total).
Proof.
  induction js as [|j js IH]; simpl; intros total; [auto with frames |].
  apply frames_bind; [apply frames_insert_batch | done].
Qed.

Lemma frames_process_dataframes dataframes batch_size : forall total,
  frames (process_dataframes drv dataframes batch_size total).
Proof.
  induction dataframes as [|df rest IH]; simpl; intros total; [auto with frames |].
  apply frames_bind; [| done]. unfold process_dataframe, insert_records.
  apply frames_bind; [auto with frames |]. intros records.
  apply frames_bind; [auto with frames |]. intros js.
  apply frames_insert_batches.
Qed.

Lemma frames_load_loop dataframes batch_size :
  frames (load_loop drv dataframes batch_size).
Proof.
  unfold load_loop. apply frames_bind; [apply frames_process_dataframes |].
  intros total. apply frames_bind; [auto with frames |]. intros _.
  apply frames_bind; [apply frames_create_indexes | auto with frames].
Qed.

Lemma frames_load_body csv_directory batch_size :
  frames (load_body drv csv_directory batch_size).
Proof.
  unfold load_body. apply frames_bind; [apply frames_read_csv_files |].
  intros [|df dfs]; [auto with frames | apply frames_load_loop].
Qed.

(** No [BulkWriteError] escapes the load loop: the only one that can arise
    comes from [insert_many], and the turn of the loop absorbs it. *)
Lemma bulk_free_insert_batches records batch_size js : forall total,
  bulk_free (insert_batches drv records batch_size js total).
Proof.
  induction js as [|j js IH]; simpl; intros total; [auto with bulk_free |].
  apply bulk_free_bind; [| done]. unfold insert_batch.
  apply bulk_free_except_BulkWriteError.
Qed.

Lemma bulk_free_process_dataframes dataframes batch_size : forall total,
  bulk_free (process_dataframes drv dataframes batch_size total).
Proof.
  induction dataframes as [|df rest IH]; simpl; intros total;
    [auto with bulk_free |].
  apply bulk_free_bind; [| done]. unfold process_dataframe, insert_records.
  apply bulk_free_bind.
  - intros s e s'. unfold lift. intros [= H <-].
    apply prepare_raises in H as ->. done.
  - intros records. apply bulk_free_bind; [| intros; apply bulk_free_insert_batches].
    intros s e s'. unfold lift, py_range.
    destruct (_ =? _)%Z; [by intros [= <- <-] | discriminate].
Qed.

Lemma bulk_free_load_loop dataframes batch_size :
  bulk_free (load_loop drv dataframes batch_size).
Proof.
  unfold load_loop. apply bulk_free_bind; [apply bulk_free_process_dataframes |].
  intros total. apply bulk_free_bind; [auto with bulk_free |]. intros _.
  apply bulk_free_bind; [| auto with bulk_free].
  unfold create_indexes. apply bulk_free_except_Exception.
Qed.

(** The load loop never returns [False]. *)
Lemma load_loop_Ok dataframes batch_size s b s' :
  load_loop drv dataframes batch_size s = (Ok b, s') -> b = true.
Proof.
  unfold load_loop. intros (total & s1 & _ & H)%bind_Ok.
  apply bind_Ok in H as (? & s2 & _ & H).
  apply bind_Ok in H as (? & s3 & _ & H). by injection H as <- _.
Qed.

(** A successful connection leaves the client and the collection set. *)
Lemma connect_Ok_true s s1 :
  connect_to_mongodb drv s = (Ok true, s1) ->
  client s1 = true /\ collection s1 = true.
Proof.
  unfold connect_to_mongodb, try_except, bind, get, perform, set_client,
    set_collection, ret, except_ConnectionFailure.
  destruct (MongoClient drv (mongo_uri s) 5000 (world s)) as [[[]|e] w1]; simpl.
  - destruct (admin_ping drv w1) as [[[]|e] w2]; simpl.
    + by intros [= <-].
    + destruct (is_ConnectionFailure e); discriminate.
  - destruct (is_ConnectionFailure e); discriminate.
Qed.

(** [disconnect] on a loader whose client is set: it is noted, the client
    is closed, and nothing is raised. *)
Lemma disconnect_connected s :
  client s = true ->
  disconnect drv s =
  (Ok tt, {| world := client_close drv (world s); mongo_uri := mongo_uri s;
             client := client s; collection := collection s;
             calls := (calls s ++ [Call_disconnect; Call_close])%list |}).
Proof.
  intros Hc. unfold disconnect, bind, record_call, get, perform. simpl.
  rewrite Hc. simpl. by rewrite <- app_assoc.
Qed.

Lemma disconnect_never_raises s : fst (disconnect drv s) = Ok tt.
Proof.
  unfold disconnect, bind, record_call, get, perform, ret. simpl.
  by destruct (client s).
Qed.

(** A turn of the insertion loop whose [insert_many] raises a
    [BulkWriteError] ends normally. *)
Lemma insert_batch_bulk batch total s details w1 :
  collection s = true ->
  insert_many drv batch false (world s) = (Raise (BulkWriteError details), w1) ->
  fst (insert_batch drv batch total s)
  = Ok (total + (len batch - len (writeErrors details)))%Z.
Proof.
  intros Hc Hi. unfold insert_batch, try_except, bind, on_collection, perform.
  rewrite Hc, Hi. reflexivity.
Qed.

(** The outcome of [load_data_to_mongodb] is that of the connection when
    it is not [True], and that of the guarded body otherwise: [disconnect]
    does not change it. *)
Lemma load_result csv_directory batch_size s :
  fst (load_data_to_mongodb drv csv_directory batch_size s) =
  match fst (connect_to_mongodb drv s) with
  | Ok true =>
      fst (try_except (load_body drv csv_directory batch_size)
                      (except_Exception (ret false))
                      (snd (connect_to_mongodb drv s)))
  | Ok false => Ok false
  | Raise e => Raise e
  end.
Proof.
  unfold load_data_to_mongodb, bind.
  destruct (connect_to_mongodb drv s) as [[[]|e] s1]; simpl; try done.
  unfold try_finally. destruct (try_except _ _ s1) as [r s2].
  pose proof (disconnect_never_raises s2) as Hd.
  destruct (disconnect drv s2) as [[[]|?] s3]; simpl in *; [done | discriminate].
Qed.

(** When the guarded body of the load gives [False]. *)
Lemma guarded_body_false csv_directory batch_size s1 :
  fst (try_except (load_body drv csv_directory batch_size)
                  (except_Exception (ret false)) s1) = Ok false <->
  fst (read_csv_files drv csv_directory s1) = Ok [] \/
  exists dataframes s2 e,
    read_csv_files drv csv_directory s1 = (Ok dataframes, s2) /\
    dataframes <> [] /\
    fst (load_loop drv dataframes batch_size s2) = Raise e /\
    is_Exception e = true.
Proof.
  unfold try_except, load_body, bind, except_Exception, ret.
  destruct (read_csv_files drv csv_directory s1) as [[dfs|e] s2] eqn:Er; simpl.
  - destruct dfs as [|df dfs]; simpl; [split; auto |].
    destruct (load_loop drv (df :: dfs) batch_size s2) as [[b|e] s3] eqn:El; simpl.
    + apply load_loop_Ok in El as Hb. subst b. split; [discriminate |].
      intros [? | (dfs' & s2' & e & Hr & _ & He & _)]; [discriminate |].
      simplify_eq. rewrite El in He. discriminate.
    + destruct (is_Exception e) eqn:Ee; simpl.
      * split; [| done]. intros _. right. exists (df :: dfs), s2, e.
        rewrite El. done.
      * split; [discriminate |].
        intros [? | (dfs' & s2' & e' & Hr & _ & He & Hx)]; [discriminate |].
        simplify_eq. rewrite El in He. simpl in He. simplify_eq. congruence.
  - apply try_except_Exception_Raise in Er as [_ Er]. rewrite Er. simpl.
    split; [discriminate |].
    intros [? | (dfs' & s2' & e' & Hr & _)]; discriminate.
Qed.

(** When the guarded body of the load lets an exception through. *)
Lemma guarded_body_raises csv_directory batch_size s1 e :
  fst (try_except (load_body drv csv_directory batch_size)
                  (except_Exception (ret false)) s1) = Raise e <->
  is_Exception e = false /\
  (fst (read_csv_files drv csv_directory s1) = Raise e \/
   exists dataframes s2,
     read_csv_files drv csv_directory s1 = (Ok dataframes, s2) /\
     dataframes <> [] /\
     fst (load_loop drv dataframes batch_size s2) = Raise e).
Proof.
  unfold try_except, load_body, bind, except_Exception, ret.
  destruct (read_csv_files drv csv_directory s1) as [[dfs|e1] s2] eqn:Er; simpl.
  - destruct dfs as [|df dfs]; simpl.
    + split; [discriminate |].
      intros [_ [? | (dfs' & s2' & Hr & Hn & _)]]; [discriminate | by simplify_eq].
    + destruct (load_loop drv (df :: dfs) batch_size s2) as [[b|e2] s3] eqn:El; simpl.
      * split; [discriminate |].
        intros [_ [? | (dfs' & s2' & Hr & _ & He)]]; [discriminate |].
        simplify_eq. rewrite El in He. discriminate.
      * destruct (is_Exception e2) eqn:Ee; simpl.
        -- split; [discriminate |].
           intros [Hx [? | (dfs' & s2' & Hr & _ & He)]]; [discriminate |].
           simplify_eq. rewrite El in He. simpl in He. simplify_eq. congruence.
        -- split.
           ++ intros [= <-]. split; [done |]. right. exists (df :: dfs), s2.
              by rewrite El.
           ++ intros [_ [? | (dfs' & s2' & Hr & _ & He)]]; [discriminate |].
              simplify_eq. rewrite El in He. simpl in He. by simplify_eq.
  - apply try_except_Exception_Raise in Er as Hx. destruct Hx as [_ Hx].
    rewrite Hx. simpl. split.
    + intros [= <-]. auto.
    + intros [_ [H | (dfs' & s2' & Hr & _)]]; [by simplify_eq | discriminate].
Qed.

(** What [connect_to_mongodb] does, by the outcome of its two calls. *)
Lemma connect_cases s :
  (exists e w1,
     MongoClient drv (mongo_uri s) 5000 (world s) = (Raise e, w1) /\
     connect_to_mongodb drv s =
     (if is_ConnectionFailure e then Ok false else Raise e,
      {| world := w1; mongo_uri := mongo_uri s; client := client s;
         collection := collection s;
         calls := (calls s ++ [Call_MongoClient (mongo_uri s)])%list |})) \/
  (exists w1 e w2,
     MongoClient drv (mongo_uri s) 5000 (world s) = (Ok tt, w1) /\
     admin_ping drv w1 = (Raise e, w2) /\
     connect_to_mongodb drv s =
     (if is_ConnectionFailure e then Ok false else Raise e,
      {| world := w2; mongo_uri := mongo_uri s; client := true;
         collection := collection s;
         calls := (calls s ++ [Call_MongoClient (mongo_uri s); Call_ping])%list |})) \/
  (exists w1 w2,
     MongoClient drv (mongo_uri s) 5000 (world s) = (Ok tt, w1) /\
     admin_ping drv w1 = (Ok tt, w2) /\
     connect_to_mongodb drv s =
     (Ok true,
      {| world := w2; mongo_uri := mongo_uri s; client := true;
         collection := true;
         calls := (calls s ++ [Call_MongoClient (mongo_uri s); Call_ping])%list |})).
Proof.
  unfold connect_to_mongodb, try_except, bind, get, perform, set_client,
    set_collection, ret, except_ConnectionFailure.
  destruct (MongoClient drv (mongo_uri s) 5000 (world s)) as [[[]|e] w1] eqn:E1;
    simpl.
  - destruct (admin_ping drv w1) as [[[]|e] w2] eqn:E2; simpl.
    + right. right. exists w1, w2. rewrite <- app_assoc. auto.
    + right. left. exists w1, e, w2. rewrite <- app_assoc.
      destruct (is_ConnectionFailure e); auto.
    - left. exists e, w1. destruct (is_ConnectionFailure e); auto.
Qed.

(** The outcome of [connect_to_mongodb], by the failure of the attempt. *)
Lemma connect_outcome s r :
  fst (connect_to_mongodb drv s) = r <->
  (exists e, connection_fails drv s e /\
             r = if is_ConnectionFailure e then Ok false else Raise e) \/
  ((forall e, ~ connection_fails drv s e) /\ r = Ok true).
Proof.
  unfold connection_fails.
  destruct (connect_cases s) as [(e & w1 & Hm & Hc) | [(w1 & e & w2 & Hm & Hp & Hc)
    | (w1 & w2 & Hm & Hp & Hc)]]; rewrite Hc, Hm; simpl.
  - split.
    + intros <-. left. exists e. auto.
    + intros [(e' & [H | (w & H & _)] & ->) | [Hn _]].
      * by simplify_eq.
      * discriminate.
      * exfalso. apply (Hn e). auto.
  - split.
    + intros <-. left. exists e. split; [| done]. right. exists w1.
      by rewrite Hp.
    + intros [(e' & [H | (w & H & H')] & ->) | [Hn _]].
      * discriminate.
      * simplify_eq. rewrite Hp in H'. simpl in H'. by simplify_eq.
      * exfalso. apply (Hn e). right. exists w1. by rewrite Hp.
  - split.
    + intros <-. right. split; [| done].
      intros e [H | (w & H & H')]; [discriminate |].
      simplify_eq. rewrite Hp in H'. discriminate.
    + intros [(e' & [H | (w & H & H')] & ->) | [_ ->]]; [discriminate | | done].
      simplify_eq. rewrite Hp in H'. discriminate.
Qed.


(** C8: once [connect_to_mongodb] has returned [True], whatever the body of
    the [try] does (return [True], return [False] or raise), [disconnect] is
    called and closes the client after the body's calls and before
    [load_data_to_mongodb] hands that outcome to its caller. *)
Theorem disconnect_on_every_exit csv_directory batch_size s s1 :
  connect_to_mongodb drv s = (Ok true, s1) ->
  exists r s2 body_calls,
    try_except (load_body drv csv_directory batch_size)
               (except_Exception (ret false)) s1 = (r, s2) /\
    calls s2 = (calls s1 ++ body_calls)%list /\
    load_data_to_mongodb drv csv_directory batch_size s =
    (r, {| world := client_close drv (world s2); mongo_uri := mongo_uri s2;
           client := client s2; collection := collection s2;
           calls := (calls s1 ++ body_calls ++ [Call_disconnect; Call_close])%list |}).
Proof.
  intros Hc. destruct (connect_Ok_true _ _ Hc) as [Hcl _].
  assert (frames (try_except (load_body drv csv_directory batch_size)
                             (except_Exception (ret false)))) as Hf
    by (apply frames_except_Exception; [apply frames_load_body | apply frames_ret]).
  destruct (Hf s1) as (H1 & _ & _ & body_calls & H4).
  destruct (try_except _ _ s1) as [r s2] eqn:E. simpl in *.
  exists r, s2, body_calls. split; [done |]. split; [done |].
  unfold load_data_to_mongodb, bind. rewrite Hc. simpl.
  unfold try_finally. rewrite E.
  rewrite disconnect_connected by congruence. by rewrite H4, <- app_assoc.
Qed.

(** One block of [create_indexes] ends normally exactly when the
    collection is set, its own query samples a document, and the index on
    its field, made when the field is in that sample, is made without
    error. *)
Lemma index_if_present_block field index_info s index_info' s' :
  index_if_present drv field index_info s = (Ok index_info', s') <->
  collection s = true /\
  exists doc w',
    block_sampled drv field (world s) doc w' /\
    index_info' =
    (index_info ++ if py_in field (default ∅ doc) then [field] else [])%list /\
    s' = {| world := w'; mongo_uri := mongo_uri s; client := client s;
            collection := collection s;
            calls := (calls s ++ index_calls field doc)%list |}.
Proof.
  unfold index_if_present, block_sampled, index_calls, bind, on_collection,
    perform, ret.
  destruct (collection s) eqn:Ec; simpl.
  2: { split; [discriminate | by intros [? _]]. }
  destruct (find_limit_1 drv (world s)) as [[doc|e] w1] eqn:Ef; simpl.
  2: { split; [discriminate |]. intros (_ & doc & w' & (w1' & [=] & _) & _). }
  rewrite ?Ec. destruct (py_in field (default ∅ doc)) eqn:Ep; simpl.
  - destruct (create_index drv [(field, 1%Z)] w1) as [[[]|e] w2] eqn:Ei; simpl.
    + split.
      * intros [= <- <-]. split; [done |]. exists doc, w2. rewrite Ep.
        split; [by exists w1 |]. split; [done |]. by rewrite <- app_assoc.
      * intros (_ & doc' & w' & (w1' & [= <- <-] & Hi) & -> & ->).
        rewrite Ep in *. rewrite Ei in Hi. injection Hi as <-.
        by rewrite <- app_assoc.
    + split; [discriminate |].
      intros (_ & doc' & w' & (w1' & [= <- <-] & Hi) & _).
      rewrite Ep, Ei in Hi. discriminate.
  - split.
    + intros [= <- <-]. split; [done |]. exists doc, w1. rewrite Ep.
      split; [by exists w1 |]. split; [by rewrite app_nil_r |]. done.
    + intros (_ & doc' & w' & (w1' & [= <- <-] & Hi) & -> & ->).
      rewrite Ep in *. subst w'. by rewrite app_nil_r.
Qed.


End Load.





Lemma disconnect_on_every_exit_witness :
  fst (connect_to_mongodb Script.driver (init Examples.uri Examples.two_files))
    = Ok true /\
  exists r s2 body_calls,
    try_except (load_body Script.driver "data" 2) (except_Exception (ret false))
      (snd (connect_to_mongodb Script.driver (init Examples.uri Examples.two_files)))
      = (r, s2) /\
    calls s2 =
      (calls (snd (connect_to_mongodb Script.driver
                     (init Examples.uri Examples.two_files))) ++ body_calls)%list /\
    load_data_to_mongodb Script.driver "data" 2
      (init Examples.uri Examples.two_files) =
    (r, {| world := client_close Script.driver (world s2);
           mongo_uri := mongo_uri s2; client := client s2;
           collection := collection s2;
           calls := (calls (snd (connect_to_mongodb Script.driver
                                   (init Examples.uri Examples.two_files)))
                     ++ body_calls ++ [Call_disconnect; Call_close])%list |}).
Proof.
  split; [vm_compute; reflexivity |].
  apply (disconnect_on_every_exit Script.driver "data" 2
           (init Examples.uri Examples.two_files)).
  vm_compute. reflexivity.
Defined.

(** A run in which the store rejects a document of the first batch still
    succeeds. *)
Example load_tolerates_bulk_error :
  fst (load_data_to_mongodb Script.driver "data" 2
         (init Examples.uri Examples.one_rejected)) = Ok true.
Proof. vm_compute. reflexivity. Qed.

End LoaderFacts.

(** ** The connection life cycle *)

Module LifecycleFacts.
Import Py PyLib Discovery Normalizer Loader NormalizerFacts LoaderFacts.

Section Lifecycle.
Context {W : Type} (drv : Collaborators W).

(** X1: an exception of [connect_to_mongodb] is never a
    [ConnectionFailure], and [load_data_to_mongodb] lets it through as it
    is: it raises instead of returning [False], having made no call of its
    own (no file listed, no [disconnect]). *)
Theorem load_propagates_connect_error csv_directory batch_size s e :
  fst (connect_to_mongodb drv s) = Raise e ->
  is_ConnectionFailure e = false /\
  load_data_to_mongodb drv csv_directory batch_size s
  = (Raise e, snd (connect_to_mongodb drv s)).
Proof.
  intros H. split.
  - destruct (connect_cases drv s) as [(e' & w1 & _ & Hc) | [(w1 & e' & w2 & _ & _ & Hc)
      | (w1 & w2 & _ & _ & Hc)]]; rewrite Hc in H; simpl in H;
      try discriminate; destruct (is_ConnectionFailure e') eqn:E;
      try discriminate; by injection H as <-.
  - unfold load_data_to_mongodb, bind.
    destruct (connect_to_mongodb drv s) as [r s1]. simpl in *. by subst r.
Qed.

(** X2: when the connection attempt returns [False], the load returns
    [False] after the constructor call, or the constructor call and the
    ping, and nothing else: no file is listed or read, nothing is inserted,
    and the client that was created is not closed. *)
Theorem failed_connection_stops_load csv_directory batch_size s :
  fst (connect_to_mongodb drv s) = Ok false ->
  fst (load_data_to_mongodb drv csv_directory batch_size s) = Ok false /\
  (calls (snd (load_data_to_mongodb drv csv_directory batch_size s))
   = (calls s ++ [Call_MongoClient (mongo_uri s)])%list \/
   calls (snd (load_data_to_mongodb drv csv_directory batch_size s))
   = (calls s ++ [Call_MongoClient (mongo_uri s); Call_ping])%list).
Proof.
  intros H. unfold load_data_to_mongodb, bind.
  destruct (connect_cases drv s) as [(e' & w1 & _ & Hc) | [(w1 & e' & w2 & _ & _ & Hc)
    | (w1 & w2 & _ & _ & Hc)]]; rewrite Hc in *; simpl in H;
    try discriminate; destruct (is_ConnectionFailure e'); try discriminate;
    simpl; auto.
Qed.

(** X3: [disconnect] never raises. On a loader whose client was never
    created it leaves the world alone; on one whose client is set it closes
    the client, and, the attribute not being reset, closes it again when
    called again. *)
Theorem disconnect_is_safe s :
  fst (disconnect drv s) = Ok tt /\
  (client s = false ->
   world (snd (disconnect drv s)) = world s /\
   calls (snd (disconnect drv s)) = (calls s ++ [Call_disconnect])%list) /\
  (client s = true ->
   world (snd (disconnect drv s)) = client_close drv (world s) /\
   calls (snd (disconnect drv (snd (disconnect drv s))))
   = (calls s ++ [Call_disconnect; Call_close; Call_disconnect; Call_close])%list).
Proof.
  split; [apply disconnect_never_raises |]. split; intros Hc.
  - unfold disconnect, bind, record_call, get, perform, ret. simpl.
    by rewrite Hc.
  - rewrite (disconnect_connected drv s Hc). simpl. split; [done |].
    rewrite disconnect_connected by done. simpl. by rewrite <- app_assoc.
Qed.

(** X4: when the connection succeeds and the directory holds no name
    ending in [.csv], the load lists the directory, disconnects and returns
    [False]: no file is read, nothing is inserted and no index is made. *)
Theorem no_csv_file_fails_load csv_directory batch_size s s1 listing w1 :
  connect_to_mongodb drv s = (Ok true, s1) ->
  os_listdir drv csv_directory (world s1) = (Ok listing, w1) ->
  csv_files_of csv_directory listing = [] ->
  load_data_to_mongodb drv csv_directory batch_size s =
  (Ok false,
   {| world := client_close drv w1; mongo_uri := mongo_uri s1;
      client := client s1; collection := collection s1;
      calls := (calls s1 ++ [Call_listdir csv_directory; Call_disconnect;
                             Call_close])%list |}).
Proof.
  intros Hc Hl Hn. destruct (connect_Ok_true drv _ _ Hc) as [Hcl _].
  unfold load_data_to_mongodb, bind. rewrite Hc. simpl.
  unfold try_finally, try_except, load_body, bind, read_csv_files, try_except,
    bind, perform.
  rewrite Hl. simpl. rewrite Hn. simpl.
  rewrite disconnect_connected by done. simpl. by rewrite <- app_assoc.
Qed.

End Lifecycle.

Lemma load_propagates_connect_error_witness :
  fst (connect_to_mongodb Script.driver (init Examples.uri Examples.refused))
    = Raise OperationFailure /\
  fst (load_data_to_mongodb Script.driver "data" 1000
         (init Examples.uri Examples.refused)) = Raise OperationFailure.
Proof.
  split; [vm_compute; reflexivity |].
  rewrite (proj2 (load_propagates_connect_error Script.driver "data" 1000
                    (init Examples.uri Examples.refused) OperationFailure
                    ltac:(vm_compute; reflexivity))).
  reflexivity.
Defined.

Lemma failed_connection_stops_load_witness :
  fst (connect_to_mongodb Script.driver (init Examples.uri Examples.unreachable))
    = Ok false /\
  fst (load_data_to_mongodb Script.driver "data" 1000
         (init Examples.uri Examples.unreachable)) = Ok false.
Proof.
  split; [vm_compute; reflexivity |].
  apply (failed_connection_stops_load Script.driver "data" 1000
           (init Examples.uri Examples.unreachable)).
  vm_compute. reflexivity.
Defined.

Lemma disconnect_is_safe_witness :
  client (init Examples.uri Examples.two_files) = false /\
  world (snd (disconnect Script.driver (init Examples.uri Examples.two_files)))
    = Examples.two_files.
Proof.
  split; [reflexivity |].
  apply (proj1 (proj2 (disconnect_is_safe Script.driver
                         (init Examples.uri Examples.two_files)))).
  reflexivity.
Defined.

Lemma no_csv_file_fails_load_witness :
  csv_files_of "data" ["notes.txt"; "csv"] = [] /\
  fst (load_data_to_mongodb Script.driver "data" 1000
         (init Examples.uri Examples.no_csv)) = Ok false.
Proof.
  split; [reflexivity |].
  rewrite (no_csv_file_fails_load Script.driver "data" 1000
             (init Examples.uri Examples.no_csv)
             (snd (connect_to_mongodb Script.driver
                     (init Examples.uri Examples.no_csv)))
             ["notes.txt"; "csv"] Examples.no_csv);
    [reflexivity | vm_compute; reflexivity | reflexivity | reflexivity].
Defined.

End LifecycleFacts.

(** ** Reading the files *)

Module ReadingFacts.
Import Py PyLib Discovery Normalizer Loader NormalizerFacts LoaderFacts.

Section Reading.
Context {W : Type} (drv : Collaborators W).

(** X5: [read_csv_files] contains every [Exception]: what it raises is
    outside the [Exception] class, and when [os.listdir] raises an
    [Exception] it returns the empty list, having read no file. *)
Theorem read_csv_files_contains_errors csv_directory s :
  (forall e, fst (read_csv_files drv csv_directory s) = Raise e ->
             is_Exception e = false) /\
  (forall e w1,
     os_listdir drv csv_directory (world s) = (Raise e, w1) ->
     is_Exception e = true ->
     read_csv_files drv csv_directory s =
     (Ok [], {| world := w1; mongo_uri := mongo_uri s; client := client s;
                collection := collection s;
                calls := (calls s ++ [Call_listdir csv_directory])%list |})).
Proof.
  split.
  - intros e H. destruct (read_csv_files drv csv_directory s) as [r s'] eqn:E.
    simpl in H. subst r. by apply try_except_Exception_Raise in E as [_ E].
  - intros e w1 Hl He.
    unfold read_csv_files, try_except, bind, perform, except_Exception, ret.
    rewrite Hl. simpl. by rewrite He.
Qed.

(** X6: a file that [pd.read_csv] fails on with an [Exception] is skipped:
    the tables read so far are kept and the loop goes on with the next
    file. *)
Theorem unreadable_file_is_skipped csv_file rest dataframes s e w1 :
  pd_read_csv drv csv_file ["Open time"; "Close time"] (world s) = (Raise e, w1) ->
  is_Exception e = true ->
  read_each drv (csv_file :: rest) dataframes s =
  read_each drv rest dataframes
    {| world := w1; mongo_uri := mongo_uri s; client := client s;
       collection := collection s;
       calls := (calls s ++ [Call_read_csv csv_file])%list |}.
Proof.
  intros Hr He. simpl.
  unfold bind at 1. unfold read_one_file, try_except, bind, perform,
    except_Exception, ret.
  rewrite Hr. simpl. by rewrite He.
Qed.

(** X7: a file that parses adds exactly one table, with as many rows as
    were parsed, after the tables read so far. *)
Theorem readable_file_adds_one_table csv_file dataframes s df w1 :
  pd_read_csv drv csv_file ["Open time"; "Close time"] (world s) = (Ok df, w1) ->
  exists df', 
    fst (read_one_file drv csv_file dataframes s) = Ok (dataframes ++ [df'])%list /\
    length df' = length df /\
    df' = tagged csv_file (fst (datetime_now drv w1)) df.
Proof.
  intros Hr. unfold read_one_file, try_except, bind, perform, ret.
  rewrite Hr. simpl. destruct (datetime_now drv w1) as [t w2]. simpl.
  eexists. split; [reflexivity |]. split; [| reflexivity].
  unfold tagged, set_column. by rewrite !length_map.
Qed.

End Reading.

Lemma read_csv_files_contains_errors_witness :
  os_listdir Script.driver "data" (world (init Examples.uri Examples.unlistable))
    = (Raise OSError, Examples.unlistable) /\
  fst (read_csv_files Script.driver "data" (init Examples.uri Examples.unlistable))
    = Ok [].
Proof.
  split; [reflexivity |].
  rewrite (proj2 (read_csv_files_contains_errors Script.driver "data"
                    (init Examples.uri Examples.unlistable))
             OSError Examples.unlistable); reflexivity.
Defined.

Lemma unreadable_file_is_skipped_witness :
  pd_read_csv Script.driver "data/b.csv" ["Open time"; "Close time"]
    Examples.one_unreadable = (Raise ValueError, Examples.one_unreadable) /\
  length (Examples.tables_read Examples.one_unreadable) = 1.
Proof.
  split; [reflexivity |].
  unfold Examples.tables_read, read_csv_files, try_except, bind, perform.
  simpl os_listdir. cbv beta iota.
  change (csv_files_of "data" ["b.csv"; "a.csv"]) with ["data/b.csv"; "data/a.csv"].
  cbv beta iota.
  rewrite (unreadable_file_is_skipped Script.driver "data/b.csv" ["data/a.csv"] []
             _ ValueError Examples.one_unreadable); [| reflexivity | reflexivity].
  vm_compute. reflexivity.
Defined.

Lemma readable_file_adds_one_table_witness :
  pd_read_csv Script.driver "data/a.csv" ["Open time"; "Close time"]
    Examples.one_unreadable
    = (Ok [ Examples.candle 1 (VStr "10.5") (VInt 7) ], Examples.one_unreadable) /\
  exists df',
    fst (read_one_file Script.driver "data/a.csv" []
           (init Examples.uri Examples.one_unreadable)) = Ok ([] ++ [df'])%list /\
    length df' = 1.
Proof.
  split; [reflexivity |].
  destruct (readable_file_adds_one_table Script.driver "data/a.csv" []
              (init Examples.uri Examples.one_unreadable)
              [ Examples.candle 1 (VStr "10.5") (VInt 7) ] Examples.one_unreadable)
    as (df' & H1 & H2 & _); [reflexivity |].
  exists df'. split; [exact H1 | exact H2].
Defined.

End ReadingFacts.

(** ** The columns of a normalised record *)

Module ColumnFacts.
Import Py PyLib Discovery Normalizer Loader NormalizerFacts.

Lemma coerce_float_dom (rec rec' : gmap string value) field :
  coerce_float rec field = Ok rec' -> dom rec' = dom rec.
Proof.
  rewrite coerce_float_unfold. destruct (rec !! field) as [v|] eqn:E.
  - intros (v' & _ & [= <-])%rbind_Ok. rewrite dom_insert_L.
    apply (elem_of_dom_2 (D := gset string)) in E. set_solver.
  - by intros [= <-].
Qed.

Lemma coerce_int_dom (rec rec' : gmap string value) field :
  coerce_int rec field = Ok rec' -> dom rec' = dom rec.
Proof.
  rewrite coerce_int_unfold. destruct (rec !! field) as [v|] eqn:E.
  - intros (v' & _ & [= <-])%rbind_Ok. rewrite dom_insert_L.
    apply (elem_of_dom_2 (D := gset string)) in E. set_solver.
  - by intros [= <-].
Qed.

Lemma fold_coerce_dom fields : forall (rec rec' : gmap string value),
  rfold coerce_float fields rec = Ok rec' -> dom rec' = dom rec.
Proof.
  induction fields as [|f fields IH]; simpl; intros rec rec' H.
  - by injection H as <-.
  - apply rbind_Ok in H as (rec1 & H1 & H).
    rewrite (IH _ _ H). by apply coerce_float_dom in H1.
Qed.

Lemma prepare_record_fields (row rec : gmap string value) :
  prepare_record row = Ok rec ->
  dom rec = dom row /\
  (forall k, k ∉ numeric_fields -> rec !! k = row !! k) /\
  (forall field v, field ∈ numeric_fields -> field <> "Number of trades" ->
     row !! field = Some v ->
     exists v', float_coerced v = Ok v' /\ rec !! field = Some v').
Proof.
  unfold prepare_record. intros (rec1 & H1 & H2)%rbind_Ok. split; [| split].
  - apply coerce_int_dom in H2. apply fold_coerce_dom in H1. congruence.
  - intros k Hk.
    pose proof (coerce_int_lookup _ _ _ k H2) as (H3 & _). rewrite H3.
    + by apply (fold_coerce_other _ _ _ _ H1).
    + intros ->. apply Hk, trades_is_numeric.
  - intros field v Hin Hne Hv.
    pose proof (coerce_int_lookup _ _ _ field H2) as (H3 & _). rewrite (H3 Hne).
    by apply (fold_coerce_field _ _ _ _ _ numeric_fields_NoDup Hin H1).
Qed.

(** X8: normalisation neither adds nor removes a column, and it leaves
    every column outside the numeric set as it was. *)
Theorem prepare_keeps_columns df records i (row rec : gmap string value) :
  prepare_data_for_mongodb df = Ok records ->
  df !! i = Some row -> records !! i = Some rec ->
  dom rec = dom row /\
  forall k, k ∉ numeric_fields -> rec !! k = row !! k.
Proof.
  intros Hp Hrow Hrec. apply rmap_Forall2 in Hp.
  pose proof (Forall2_lookup_lr _ _ _ _ _ _ Hp Hrow Hrec) as H.
  apply prepare_record_fields in H as (H1 & H2 & _). auto.
Qed.

(** X9: in every record normalisation returns, a numeric column other than
    ['Number of trades'] whose value was missing ([None], [NaN], [NaT]) is
    unchanged; one whose value [float] accepts holds that float (for a
    text, also when its digits and spaces are those of another script); and
    one on which [float] raises [ValueError] or [TypeError] holds [None]. *)
Theorem numeric_column_after_normalization df records i
    (row rec : gmap string value) field v :
  prepare_data_for_mongodb df = Ok records ->
  df !! i = Some row -> records !! i = Some rec ->
  field ∈ numeric_fields -> field <> "Number of trades" ->
  row !! field = Some v ->
  (pd_notna v = false -> rec !! field = Some v) /\
  (forall f, pd_notna v = true -> py_float v = Ok f ->
             rec !! field = Some (VFloat f)) /\
  (forall e, pd_notna v = true -> py_float v = Raise e ->
             is_ValueError_or_TypeError e = true -> rec !! field = Some VNone).
Proof.
  intros Hp Hrow Hrec Hin Hne Hv. apply rmap_Forall2 in Hp.
  pose proof (Forall2_lookup_lr _ _ _ _ _ _ Hp Hrow Hrec) as H.
  apply prepare_record_fields in H as (_ & _ & H).
  destruct (H field v Hin Hne Hv) as (v' & Hc & Hl). rewrite Hl.
  unfold float_coerced in Hc. split; [| split].
  - intros Hna. rewrite Hna in Hc. congruence.
  - intros f Hna Hf. rewrite Hna, Hf in Hc. simpl in Hc. congruence.
  - intros e Hna Hf He. rewrite Hna, Hf in Hc. simpl in Hc. rewrite He in Hc.
    congruence.
Qed.

Lemma prepare_keeps_columns_witness :
  prepare_data_for_mongodb [ Examples.candle 4 (VStr "n/a") (VInt 2) ]
    = Ok [ Examples.candle 4 VNone (VInt 2) ] /\
  dom (Examples.candle 4 VNone (VInt 2))
    = dom (Examples.candle 4 (VStr "n/a") (VInt 2)).
Proof.
  split; [vm_compute; reflexivity |].
  apply (prepare_keeps_columns [ Examples.candle 4 (VStr "n/a") (VInt 2) ]
           [ Examples.candle 4 VNone (VInt 2) ] 0
           (Examples.candle 4 (VStr "n/a") (VInt 2))
           (Examples.candle 4 VNone (VInt 2)));
    [vm_compute; reflexivity | reflexivity | reflexivity].
Defined.

Lemma numeric_column_after_normalization_witness :
  py_float (VStr "１２") = Ok Examples.twelve /\
  prepare_data_for_mongodb [ Examples.candle 4 (VStr "１２") (VInt 2) ]
    = Ok [ Examples.candle 4 (VFloat Examples.twelve) (VInt 2) ] /\
  Examples.candle 4 (VFloat Examples.twelve) (VInt 2) !! "Volume"
    = Some (VFloat Examples.twelve).
Proof.
  split; [vm_compute; reflexivity |]. split; [vm_compute; reflexivity |].
  apply (proj1 (proj2 (numeric_column_after_normalization
                         [ Examples.candle 4 (VStr "１２") (VInt 2) ]
                         [ Examples.candle 4 (VFloat Examples.twelve) (VInt 2) ] 0
                         (Examples.candle 4 (VStr "１２") (VInt 2))
                         (Examples.candle 4 (VFloat Examples.twelve) (VInt 2))
                         "Volume" (VStr "１２")
                         ltac:(vm_compute; reflexivity) eq_refl eq_refl
                         ltac:(apply (bool_decide_unpack _); vm_compute; exact I)
                         ltac:(discriminate)
                         ltac:(vm_compute; reflexivity)))
           Examples.twelve); [reflexivity | vm_compute; reflexivity].
Defined.

End ColumnFacts.

(** ** The calls of a load, by kind *)

Module CallFacts.
Import Py PyLib Discovery Normalizer Loader NormalizerFacts LoaderFacts BatchFacts.

Section Emits.
Context {W : Type} (P : call -> Prop).

Lemma emits_nothing {A} (m : M W A) :
  (forall s, calls (snd (m s)) = calls s) -> emits P m.
Proof. intros H s. exists []. by rewrite H, app_nil_r. Qed.

Lemma emits_ret {A} (a : A) : emits P (@ret W A a).
Proof. by apply emits_nothing. Qed.

Lemma emits_lift {A} (r : result A) : emits P (@lift W A r).
Proof. by apply emits_nothing. Qed.

Lemma emits_record_call c : P c -> emits P (@record_call W c).
Proof. intros Hc s. exists [c]. split; [done | by constructor]. Qed.

Lemma emits_perform {A} c (op : W -> result A * W) : P c -> emits P (perform c op).
Proof.
  intros Hc s. unfold perform. destruct (op (world s)) as [r w1].
  exists [c]. split; [done | by constructor].
Qed.

Lemma emits_on_collection {A} (m : M W A) : emits P m -> emits P (on_collection m).
Proof.
  intros Hm s. unfold on_collection. destruct (collection s); [apply Hm |].
  exists []. by rewrite app_nil_r.
Qed.

Lemma emits_then {A} (s s1 : state W) (m : M W A) new1 :
  calls s1 = (calls s ++ new1)%list -> Forall P new1 -> emits P m ->
  exists new, calls (snd (m s1)) = (calls s ++ new)%list /\ Forall P new.
Proof.
  intros H1 HP Hm. destruct (Hm s1) as (new2 & H2 & HP2).
  exists (new1 ++ new2)%list. split; [by rewrite H2, H1, app_assoc |].
  by apply Forall_app.
Qed.

Lemma emits_bind {A B} (m : M W A) (k : A -> M W B) :
  emits P m -> (forall a, emits P (k a)) -> emits P (bind m k).
Proof.
  intros Hm Hk s. unfold bind. destruct (Hm s) as (new1 & H1 & HP1).
  destruct (m s) as [[a|e] s1]; simpl in *; [| eauto].
  eapply emits_then; eauto.
Qed.

Lemma emits_try_except {A} (m : M W A) handler :
  emits P m -> (forall e h, handler e = Some h -> emits P h) ->
  emits P (try_except m handler).
Proof.
  intros Hm Hh s. unfold try_except. destruct (Hm s) as (new1 & H1 & HP1).
  destruct (m s) as [[a|e] s1]; simpl in *; [eauto |].
  destruct (handler e) as [h|] eqn:E; [| eauto].
  eapply emits_then; eauto.
Qed.

Lemma emits_except_Exception {A} (m h : M W A) :
  emits P m -> emits P h -> emits P (try_except m (except_Exception h)).
Proof.
  intros Hm Hh. apply emits_try_except; [done |]. unfold except_Exception.
  intros e h'. destruct (is_Exception e); [| discriminate].
  intros H. by injection H as <-.
Qed.

Lemma emits_except_BulkWriteError {A} (m : M W A) h :
  emits P m -> (forall d, emits P (h d)) ->
  emits P (try_except m (except_BulkWriteError h)).
Proof.
  intros Hm Hh. apply emits_try_except; [done |]. unfold except_BulkWriteError.
  intros e h'. destruct e; try discriminate. intros H. by injection H as <-.
Qed.

End Emits.

Lemma emits_weaken {W A} (P Q : call -> Prop) (m : M W A) :
  (forall c, P c -> Q c) -> emits P m -> emits Q m.
Proof.
  intros HPQ Hm s. destruct (Hm s) as (new & H & HP). exists new.
  split; [done |]. eapply Forall_impl; eauto.
Qed.

Section Kinds.
Context {W : Type} (drv : Collaborators W).

Lemma emits_read_each csv_files : forall dataframes,
  emits reading_call (read_each drv csv_files dataframes).
Proof.
  induction csv_files as [|f rest IH]; simpl; intros dfs; [apply emits_ret |].
  apply emits_bind; [| done]. unfold read_one_file.
  apply emits_except_Exception; [| apply emits_ret].
  apply emits_bind; [by apply emits_perform |]. intros df.
  apply emits_bind; [by apply emits_perform |]. intros t. apply emits_ret.
Qed.

Lemma emits_read_csv_files csv_directory :
  emits reading_call (read_csv_files drv csv_directory).
Proof.
  unfold read_csv_files. apply emits_except_Exception; [| apply emits_ret].
  apply emits_bind; [by apply emits_perform |]. intros listing.
  destruct (csv_files_of csv_directory listing);
    [apply emits_ret | apply emits_read_each].
Qed.

Lemma emits_insert_batches (records : list record) batch_size js :
  Forall (fun j => py_slice records j (j + batch_size) <> []) js ->
  forall total, emits insertion_call (insert_batches drv records batch_size js total).
Proof.
  induction 1 as [|j js Hj _ IH]; simpl; intros total; [apply emits_ret |].
  apply emits_bind; [| done]. unfold insert_batch.
  apply emits_except_BulkWriteError; [| intros; apply emits_ret].
  apply emits_bind; [| intros; apply emits_ret].
  apply emits_on_collection, emits_perform. by split.
Qed.

(** The slices of the insertion loop are never empty. *)
Lemma range_slices_nonempty (records : list record) batch_size js :
  py_range 0 (len records) batch_size = Ok js ->
  Forall (fun j => py_slice records j (j + batch_size) <> []) js.
Proof.
  intros Hr. destruct (Z_lt_le_dec batch_size 1) as [Hlt|Hge].
  - unfold py_range in Hr. destruct (Z.eqb_spec batch_size 0); [discriminate |].
    destruct (Z.ltb_spec 0 batch_size); [lia |].
    destruct (Z.ltb_spec (len records) 0); [unfold len in *; lia |].
    injection Hr as <-. constructor.
  - destruct records as [|r records].
    + unfold py_range in Hr. destruct (Z.eqb_spec batch_size 0); [lia |].
      destruct (Z.ltb_spec 0 batch_size); [| lia]. simpl in Hr.
      injection Hr as <-. constructor.
    + destruct (batches_of_spec (r :: records) batch_size) as [Hb _];
        [done | done |].
      unfold batches_of in Hb. rewrite Hr in Hb.
      apply Forall_fmap in Hb. eapply Forall_impl; [exact Hb |].
      simpl. intros j [Hj _] Hnil. rewrite Hnil in Hj. unfold len in Hj.
      simpl in Hj. lia.
Qed.

Lemma emits_process_dataframes dataframes batch_size : forall total,
  emits insertion_call (process_dataframes drv dataframes batch_size total).
Proof.
  induction dataframes as [|df rest IH]; simpl; intros total; [apply emits_ret |].
  apply emits_bind; [| done]. unfold process_dataframe, insert_records.
  intros s. unfold bind, lift.
  destruct (prepare_data_for_mongodb df) as [records|e];
    [| exists []; by rewrite app_nil_r].
  destruct (py_range 0 (len records) batch_size) as [js|e] eqn:Hr;
    [| exists []; by rewrite app_nil_r].
  apply emits_insert_batches. by apply range_slices_nonempty.
Qed.

Lemma emits_index_if_present field index_info :
  emits indexing_call (index_if_present drv field index_info).
Proof.
  unfold index_if_present.
  apply emits_bind; [by apply emits_on_collection, emits_perform |]. intros doc.
  destruct (py_in field (default ∅ doc)); [| apply emits_ret].
  apply emits_bind; [by apply emits_on_collection, emits_perform |].
  intros; apply emits_ret.
Qed.

Lemma emits_create_indexes : emits indexing_call (create_indexes drv).
Proof.
  unfold create_indexes, create_indexes_body.
  apply emits_except_Exception; [| apply emits_ret].
  repeat (apply emits_bind; [apply emits_index_if_present | intros ?]).
  by apply emits_record_call.
Qed.

(** X10: whatever the batch size and the tables, every batch the load loop
    hands to [insert_many] holds at least one record and is sent
    unordered. *)
Theorem no_empty_batch_is_inserted dataframes batch_size total s :
  exists new,
    calls (snd (process_dataframes drv dataframes batch_size total s))
      = (calls s ++ new)%list /\
    Forall insertion_call new.
Proof. apply emits_process_dataframes. Qed.

(** X11: in the load loop every insertion comes before every call of index
    provisioning: the calls are insertions, then the logged total, then the
    queries and index creations. *)
Theorem indexes_follow_insertions dataframes batch_size s :
  exists insertions rest,
    calls (snd (load_loop drv dataframes batch_size s))
      = (calls s ++ insertions ++ rest)%list /\
    Forall insertion_call insertions /\
    Forall (fun c => indexing_call c \/
                     exists total_records, c = Log_total_records total_records)
           rest.
Proof.
  unfold load_loop, bind.
  destruct (emits_process_dataframes dataframes batch_size 0%Z s)
    as (ins & H1 & HP1).
  destruct (process_dataframes drv dataframes batch_size 0 s) as [[total|e] s1];
    simpl in *.
  - unfold record_call. simpl.
    match goal with |- context [create_indexes drv ?s2] =>
      destruct (emits_create_indexes s2) as (idx & H2 & HP2);
      destruct (create_indexes drv s2) as [[[]|e] s3] end; simpl in *;
      exists ins, (Log_total_records total :: idx); rewrite H2, H1;
      (split; [by rewrite <- !app_assoc |]); (split; [done |]);
      (constructor; [right; eauto |]);
      (eapply Forall_impl; [exact HP2 | auto]).
  - exists ins, []. rewrite app_nil_r. auto.
Qed.

(** X12: a load whose connection succeeded makes, after connecting, only
    calls of reading, insertion and indexing (and logs the total), then
    disconnects and closes the client: the client is closed once, by the last
    call. *)
Theorem client_closed_once_at_the_end csv_directory batch_size s s1 :
  connect_to_mongodb drv s = (Ok true, s1) ->
  exists body,
    calls (snd (load_data_to_mongodb drv csv_directory batch_size s))
      = (calls s1 ++ body ++ [Call_disconnect; Call_close])%list /\
    Forall body_call body.
Proof.
  intros Hc. destruct (connect_Ok_true drv _ _ Hc) as [Hcl _].
  assert (emits body_call
            (try_except (load_body drv csv_directory batch_size)
                        (except_Exception (ret false)))) as He.
  { apply emits_except_Exception; [| apply emits_ret]. unfold load_body.
    apply emits_bind.
    - eapply emits_weaken; [| apply emits_read_csv_files]. unfold body_call. auto.
    - intros [|df dfs]; [apply emits_ret |]. unfold load_loop.
      apply emits_bind.
      + eapply emits_weaken; [| apply emits_process_dataframes].
        unfold body_call. auto.
      + intros total. apply emits_bind.
        * apply emits_record_call. unfold body_call. eauto 6.
        * intros _. apply emits_bind; [| intros; apply emits_ret].
          eapply emits_weaken; [| apply emits_create_indexes].
          unfold body_call. auto. }
  assert (frames (try_except (load_body drv csv_directory batch_size)
                             (except_Exception (ret false)))) as Hf
    by (apply frames_except_Exception; [apply frames_load_body | apply frames_ret]).
  destruct (Hf s1) as (H1 & _). destruct (He s1) as (body & H2 & HP).
  exists body. split; [| done].
  unfold load_data_to_mongodb, bind. rewrite Hc. simpl. unfold try_finally.
  destruct (try_except _ _ s1) as [r s2]. simpl in *.
  rewrite disconnect_connected by congruence. simpl.
  by rewrite H2, <- app_assoc.
Qed.

End Kinds.

Lemma client_closed_once_at_the_end_witness :
  fst (connect_to_mongodb Script.driver (init Examples.uri Examples.two_files))
    = Ok true /\
  exists body,
    calls (snd (load_data_to_mongodb Script.driver "data" 2
                  (init Examples.uri Examples.two_files)))
      = (calls (snd (connect_to_mongodb Script.driver
                       (init Examples.uri Examples.two_files)))
         ++ body ++ [Call_disconnect; Call_close])%list /\
    Forall body_call body.
Proof.
  split; [vm_compute; reflexivity |].
  apply (client_closed_once_at_the_end Script.driver "data" 2
           (init Examples.uri Examples.two_files)).
  vm_compute. reflexivity.
Defined.

End CallFacts.

(** ** Batch sizes *)

Module BatchSizeFacts.
Import Py PyLib Discovery Normalizer Loader NormalizerFacts LoaderFacts BatchFacts.

(** X13: for a batch size of at least one the list is cut into
    [ceil(len / batch_size)] batches, and every batch but the last holds
    exactly [batch_size] elements. *)
Theorem batches_full_but_last {A} (l : list A) (step : Z) :
  (1 <= step)%Z ->
  length (batches_of l step) = steps (len l) step /\
  forall i (c : list A),
    batches_of l step !! i = Some c ->
    (S i < length (batches_of l step))%nat -> len c = step.
Proof.
  intros Hs. rewrite batches_of_chunks by done.
  rewrite length_map, length_seq. split; [done |].
  intros i c Hc Hi. rewrite list_lookup_fmap in Hc.
  destruct (seq 0 (steps (len l) step) !! i) as [i'|] eqn:Ei; [| discriminate].
  apply lookup_seq in Ei as [-> _]. simpl in Hc. injection Hc as <-.
  unfold len. rewrite length_take, length_drop.
  assert (0 < len l)%Z as Hn.
  { unfold steps in Hi. destruct (Z.ltb_spec 0 (len l)); [done | simpl in Hi; lia]. }
  destruct (steps_bounds (len l) step Hs Hn) as [H1 _]. unfold len in *.
  assert (Z.of_nat (S i) * step <= Z.of_nat (steps (Z.of_nat (length l)) step - 1) * step)%Z
    by nia.
  nia.
Qed.

Section Sizes.
Context {W : Type} (drv : Collaborators W).

(** X14: a negative batch size makes the insertion loop do nothing at all:
    no call, no error, the total unchanged. A batch size of zero makes it
    raise [ValueError] before any insertion. *)
Theorem nonpositive_batch_size (records : list record) batch_size total s :
  ((batch_size < 0)%Z ->
   insert_records drv records batch_size total s = (Ok total, s)) /\
  (batch_size = 0%Z ->
   insert_records drv records batch_size total s = (Raise ValueError, s)).
Proof.
  unfold insert_records, bind, lift, py_range. split.
  - intros Hb. destruct (Z.eqb_spec batch_size 0); [lia |].
    destruct (Z.ltb_spec 0 batch_size); [lia |].
    destruct (Z.ltb_spec (len records) 0); [unfold len in *; lia |]. done.
  - intros ->. done.
Qed.

(** X15: with a batch size of zero, a load that connected and parsed at
    least one table whose first table normalises returns [False]. *)
Theorem zero_batch_size_fails_load csv_directory s df dataframes s2 records :
  fst (connect_to_mongodb drv s) = Ok true ->
  read_csv_files drv csv_directory (snd (connect_to_mongodb drv s))
    = (Ok (df :: dataframes), s2) ->
  prepare_data_for_mongodb df = Ok records ->
  fst (load_data_to_mongodb drv csv_directory 0 s) = Ok false.
Proof.
  intros Hc Hr Hp. rewrite load_result, Hc. apply guarded_body_false.
  right. exists (df :: dataframes), s2, ValueError. split; [done |].
  split; [done |]. split; [| done].
  unfold load_loop, bind. simpl. unfold bind, process_dataframe, bind, lift.
  rewrite Hp. by unfold insert_records, bind, lift, py_range.
Qed.

End Sizes.

Lemma batches_full_but_last_witness :
  (1 <= 2)%Z /\ length (batches_of Examples.three_records 2) = 2.
Proof.
  split; [lia |].
  rewrite (proj1 (batches_full_but_last Examples.three_records 2 ltac:(lia))).
  reflexivity.
Defined.

Lemma nonpositive_batch_size_witness :
  (-1 < 0)%Z /\
  insert_records Script.driver Examples.three_records (-1) 0
    (Examples.connected Examples.two_files)
  = (Ok 0%Z, Examples.connected Examples.two_files).
Proof.
  split; [lia |].
  apply (proj1 (nonpositive_batch_size Script.driver Examples.three_records (-1) 0
                  (Examples.connected Examples.two_files))).
  lia.
Defined.

Lemma zero_batch_size_fails_load_witness :
  fst (connect_to_mongodb Script.driver (init Examples.uri Examples.two_files))
    = Ok true /\
  fst (load_data_to_mongodb Script.driver "data" 0
         (init Examples.uri Examples.two_files)) = Ok false.
Proof.
  split; [vm_compute; reflexivity |].
  apply (zero_batch_size_fails_load Script.driver "data"
           (init Examples.uri Examples.two_files)
           (hd [] (Examples.tables_read Examples.two_files))
           (tl (Examples.tables_read Examples.two_files))
           (snd (read_csv_files Script.driver "data"
                   (snd (connect_to_mongodb Script.driver
                           (init Examples.uri Examples.two_files)))))
           (match prepare_data_for_mongodb
                    (hd [] (Examples.tables_read Examples.two_files)) with
            | Ok records => records
            | Raise _ => []
            end));
    vm_compute; reflexivity.
Defined.

End BatchSizeFacts.

(** ** Index provisioning *)

Module IndexFacts.
Import Py PyLib Discovery Normalizer Loader NormalizerFacts LoaderFacts.

Section Indexes.
Context {W : Type} (drv : Collaborators W).

(** A block of [create_indexes] whose query finds no document. *)
Lemma index_if_present_empty field index_info s w1 :
  collection s = true -> find_limit_1 drv (world s) = (Ok None, w1) ->
  index_if_present drv field index_info s =
  (Ok index_info,
   {| world := w1; mongo_uri := mongo_uri s; client := client s;
      collection := true; calls := (calls s ++ [Call_find])%list |}).
Proof.
  intros Hc Hf. unfold index_if_present, bind, on_collection, perform, ret.
  rewrite Hc, Hf. reflexivity.
Qed.

(** X16: on a collection in which the three queries find no document,
    [create_indexes] makes the three queries, creates no index, and returns
    normally. *)
Theorem no_document_no_index s w1 w2 w3 :
  collection s = true ->
  find_limit_1 drv (world s) = (Ok None, w1) ->
  find_limit_1 drv w1 = (Ok None, w2) ->
  find_limit_1 drv w2 = (Ok None, w3) ->
  create_indexes drv s =
  (Ok tt,
   {| world := w3; mongo_uri := mongo_uri s; client := client s;
      collection := true;
      calls := (calls s ++ [Call_find; Call_find; Call_find; Log_indexes []])%list |}).
Proof.
  intros Hc H1 H2 H3.
  unfold create_indexes, create_indexes_body, try_except, bind.
  rewrite (index_if_present_empty _ _ _ _ Hc H1).
  erewrite index_if_present_empty; [| reflexivity | exact H2].
  erewrite index_if_present_empty; [| reflexivity | exact H3].
  unfold record_call. simpl. by rewrite <- !app_assoc.
Qed.

(** X17: on a loader that never connected (its collection is [None]),
    [create_indexes] calls nothing and returns normally, the
    [AttributeError] being caught. *)
Theorem create_indexes_without_collection s :
  collection s = false -> create_indexes drv s = (Ok tt, s).
Proof.
  intros Hc.
  unfold create_indexes, create_indexes_body, try_except, bind,
    index_if_present, bind, on_collection.
  rewrite Hc. reflexivity.
Qed.

(** X18: once every table has been processed, nothing that index
    provisioning does makes the load loop fail: it gives [True], unless an
    exception outside the [Exception] class passes through. *)
Theorem index_errors_do_not_fail_load dataframes batch_size s total s1 :
  process_dataframes drv dataframes batch_size 0%Z s = (Ok total, s1) ->
  fst (load_loop drv dataframes batch_size s) = Ok true \/
  exists e, fst (load_loop drv dataframes batch_size s) = Raise e /\
            is_Exception e = false.
Proof.
  intros Hp. unfold load_loop, bind. rewrite Hp. unfold record_call.
  match goal with |- context [create_indexes drv ?s2] =>
    destruct (create_indexes drv s2) as [[[]|e] s3] eqn:E end; simpl.
  - by left.
  - right. exists e. split; [done |].
    unfold create_indexes in E.
    by apply try_except_Exception_Raise in E as [_ E].
Qed.

End Indexes.

Lemma no_document_no_index_witness :
  collection (Examples.connected Examples.two_files) = true /\
  fst (create_indexes Script.driver (Examples.connected Examples.two_files))
    = Ok tt /\
  indexes_created
    (calls (snd (create_indexes Script.driver
                   (Examples.connected Examples.two_files)))) = [].
Proof.
  split; [reflexivity |].
  rewrite (no_document_no_index Script.driver
             (Examples.connected Examples.two_files)
             Examples.two_files Examples.two_files Examples.two_files);
    try reflexivity.
  split; reflexivity.
Defined.

Lemma create_indexes_without_collection_witness :
  collection (init Examples.uri Examples.two_files) = false /\
  create_indexes Script.driver (init Examples.uri Examples.two_files)
  = (Ok tt, init Examples.uri Examples.two_files).
Proof.
  split; [reflexivity |].
  apply (create_indexes_without_collection Script.driver). reflexivity.
Defined.

Lemma index_errors_do_not_fail_load_witness :
  is_Ok (fst (process_dataframes Script.driver
                [ [ Examples.candle 1 (VStr "10.5") (VInt 7) ] ] 1000 0
                (Examples.connected Examples.index_refused))) = true /\
  fst (load_loop Script.driver [ [ Examples.candle 1 (VStr "10.5") (VInt 7) ] ]
         1000 (Examples.connected Examples.index_refused)) = Ok true.
Proof.
  split; [vm_compute; reflexivity |].
  destruct (index_errors_do_not_fail_load Script.driver
              [ [ Examples.candle 1 (VStr "10.5") (VInt 7) ] ] 1000
              (Examples.connected Examples.index_refused) 1
              (snd (process_dataframes Script.driver
                      [ [ Examples.candle 1 (VStr "10.5") (VInt 7) ] ] 1000 0
                      (Examples.connected Examples.index_refused))))
    as [H | (e & H & He)]; [vm_compute; reflexivity | exact H |].
  vm_compute in H. discriminate.
Defined.

End IndexFacts.

(** ** Paths *)

Module PathFacts.
Import Py PyLib Discovery Normalizer Loader.

Lemma list_ascii_of_string_app (a b : string) :
  list_ascii_of_string (a ++ b) = (list_ascii_of_string a ++ list_ascii_of_string b)%list.
Proof. induction a as [|c a IH]; simpl; [done | by rewrite IH]. Qed.

(** [after_last_slash] reads its text from left to right. *)
Lemma after_last_slash_app (l1 l2 : list ascii) : forall acc,
  after_last_slash (l1 ++ l2) acc = after_last_slash l2 (after_last_slash l1 acc).
Proof.
  induction l1 as [|c l1 IH]; simpl; intros acc; [done |].
  destruct (Ascii.eqb c "/"); apply IH.
Qed.

Lemma after_last_slash_none (l : list ascii) : forall acc,
  Forall (fun c => c <> "/"%char) l -> after_last_slash l acc = (acc ++ l)%list.
Proof.
  induction l as [|c l IH]; simpl; intros acc Hl; [by rewrite app_nil_r |].
  apply Forall_cons in Hl as [Hc Hl].
  destruct (Ascii.eqb_spec c "/"); [done |].
  rewrite IH by done. by rewrite <- app_assoc.
Qed.

(** A name that ends in ['/'] has nothing after its last ['/']. *)
Lemma endswith_slash (a : string) :
  endswith a "/" = true ->
  exists l, list_ascii_of_string a = (l ++ ["/"%char])%list.
Proof.
  unfold endswith. induction a as [|c a IH]; [discriminate |].
  intros H. apply andb_true_iff in H as [_ H]. simpl in H.
  rewrite Nat.sub_0_r in H.
  destruct a as [|c' a'].
  - simpl in H. destruct (Ascii.eqb_spec c "/") as [->|]; [| discriminate].
    by exists [].
  - simpl in H. destruct IH as [l Hl].
    + simpl. rewrite Nat.sub_0_r. exact H.
    + exists (c :: l). simpl. simpl in Hl. by rewrite Hl.
Qed.

Lemma prefix_slash (b : string) :
  Forall (fun c => c <> "/"%char) (list_ascii_of_string b) ->
  String.prefix "/" b = false.
Proof.
  destruct b as [|c b]; [done |]. intros [Hc _]%Forall_cons.
  change (String.prefix "/" (String c b))
    with (if ascii_dec "/" c then String.prefix "" b else false).
  destruct (ascii_dec "/" c) as [<-|]; [done | done].
Qed.

(** The base name of a directory joined with a name that holds no ['/'] is
    that name. *)
Lemma basename_of_joined (a b : string) :
  Forall (fun c => c <> "/"%char) (list_ascii_of_string b) ->
  os_path_basename (os_path_join a b) = b.
Proof.
  intros Hb. unfold os_path_join, os_path_basename.
  rewrite (prefix_slash b Hb).
  destruct (String.eqb_spec a "") as [->|_]; simpl.
  - rewrite after_last_slash_none by done. apply string_of_list_ascii_of_string.
  - destruct (endswith a "/") eqn:Ea.
    + destruct (endswith_slash a Ea) as [l Hl].
      rewrite list_ascii_of_string_app, Hl, !after_last_slash_app. simpl.
      rewrite after_last_slash_none by done. apply string_of_list_ascii_of_string.
    + rewrite !list_ascii_of_string_app, !after_last_slash_app. simpl.
      rewrite after_last_slash_none by done. apply string_of_list_ascii_of_string.
Qed.

(** X19: when no listed name holds a ['/'] (as for the names [os.listdir]
    gives), the base names of the discovered paths, which become the
    [source_file] values, are exactly the listed names ending in [.csv], in
    the order of the listing. *)
Theorem source_files_are_listed_names csv_directory (listing : list string) :
  Forall (fun file => Forall (fun c => c <> "/"%char) (list_ascii_of_string file))
         listing ->
  map os_path_basename (csv_files_of csv_directory listing)
  = List.filter (fun file => endswith file ".csv") listing.
Proof.
  intros Hl. unfold csv_files_of. rewrite map_map.
  induction Hl as [|file listing Hf _ IH]; simpl; [done |].
  destruct (endswith file ".csv"); simpl; [| done].
  by rewrite IH, basename_of_joined.
Qed.

Lemma source_files_are_listed_names_witness :
  Forall (fun file => Forall (fun c => c <> "/"%char) (list_ascii_of_string file))
         ["b.csv"; "notes.txt"; "a.csv"] /\
  map os_path_basename (csv_files_of "data/raw" ["b.csv"; "notes.txt"; "a.csv"])
  = ["b.csv"; "a.csv"].
Proof.
  assert (Forall (fun file => Forall (fun c => c <> "/"%char)
                                     (list_ascii_of_string file))
                 ["b.csv"; "notes.txt"; "a.csv"]) as H
    by (repeat constructor; discriminate).
  split; [exact H |].
  rewrite (source_files_are_listed_names "data/raw" _ H). reflexivity.
Defined.

End PathFacts.

(** ** Integers through [float] and [int] *)

Module TradeCountFacts.
Import Py PyLib Normalizer NormalizerFacts.

Lemma digits2_pos_iter (m k : positive) :
  digits2_pos (Pos.iter xO m k) = (digits2_pos m + k)%positive.
Proof.
  induction k as [|k IH] using Pos.peano_ind.
  - simpl. lia.
  - rewrite Pos.iter_succ. simpl. rewrite IH. lia.
Qed.

Lemma iter_xO_value (m k : positive) :
  Zpos (Pos.iter xO m k) = (Zpos m * 2 ^ Zpos k)%Z.
Proof.
  induction k as [|k IH] using Pos.peano_ind.
  - simpl. lia.
  - rewrite Pos.iter_succ, Pos2Z.inj_xO, IH, Pos2Z.inj_succ, Z.pow_succ_r by lia.
    lia.
Qed.

(** A mantissa of exactly 53 bits at an exponent in range is its own
    rounding. *)
Lemma round_exact (s : bool) (m : positive) (e : Z) :
  Zpos (digits2_pos m) = 53%Z -> (-1074 <= e <= 971)%Z ->
  binary_round_aux prec emax s (Zpos m) e loc_Exact = S754_finite s m e.
Proof.
  intros Hd He. unfold binary_round_aux, shr_fexp, fexp, emin, prec, emax.
  simpl Zdigits2. rewrite Hd.
  replace (Z.max (53 + e - 53) (3 - 1024 - 53) - e)%Z with 0%Z by lia.
  simpl. rewrite Hd.
  replace (Z.max (53 + e - 53) (3 - 1024 - 53) - e)%Z with 0%Z by lia.
  simpl. destruct (Z.leb_spec e (1024 - 53)); [done | lia].
Qed.

(** An integer of at most 53 bits goes through [float] and [int]
    unchanged. *)
Lemma int_of_float_of_small (s : bool) (m : positive) :
  (Zpos (digits2_pos m) <= 53)%Z ->
  int_of_float (binary_round prec emax s m 0)
  = Ok (if s then Zneg m else Zpos m).
Proof.
  intros Hd. unfold binary_round, shl_align, fexp, emin, prec, emax.
  pose proof (Pos2Z.is_pos (digits2_pos m)) as Hp.
  replace (Z.max (Z.pos (digits2_pos m) + 0 - 53) (3 - 1024 - 53) - 0)%Z
    with (Z.pos (digits2_pos m) - 53)%Z by lia.
  replace (Z.max (Z.pos (digits2_pos m) + 0 - 53) (3 - 1024 - 53))%Z
    with (Z.pos (digits2_pos m) - 53)%Z by lia.
  destruct (Z.pos (digits2_pos m) - 53)%Z as [|k|k] eqn:Ek; [| lia |].
  - fold prec emax. rewrite round_exact by lia. simpl.
    destruct s; f_equal; lia.
  - fold prec emax. rewrite round_exact.
    + simpl. rewrite iter_xO_value, Z.div_mul by lia. by destruct s.
    + rewrite digits2_pos_iter. lia.
    + lia.
Qed.

Lemma small_digits (m : positive) :
  (Zpos m < 2 ^ 53)%Z -> (Zpos (digits2_pos m) <= 53)%Z.
Proof.
  intros Hm. destruct (Z_le_gt_dec (Zpos (digits2_pos m)) 53) as [|Hgt]; [done |].
  exfalso.
  assert (forall p, (2 ^ (Zpos (digits2_pos p) - 1) <= Zpos p)%Z) as Hlow.
  { induction p as [p IH|p IH|]; simpl digits2_pos.
    - rewrite Pos2Z.inj_succ.
      replace (Z.succ (Zpos (digits2_pos p)) - 1)%Z
        with (Z.succ (Zpos (digits2_pos p) - 1)) by lia.
      rewrite Z.pow_succ_r by lia. lia.
    - rewrite Pos2Z.inj_succ.
      replace (Z.succ (Zpos (digits2_pos p)) - 1)%Z
        with (Z.succ (Zpos (digits2_pos p) - 1)) by lia.
      rewrite Z.pow_succ_r by lia. lia.
    - simpl. lia. }
  specialize (Hlow m).
  assert (2 ^ 53 <= 2 ^ (Zpos (digits2_pos m) - 1))%Z
    by (apply Z.pow_le_mono_r; lia).
  lia.
Qed.

(** [int(float(z))] is [z] for an integer below [2^53] in magnitude. *)
Lemma int_float_round_trip (z : Z) :
  (Z.abs z < 2 ^ 53)%Z ->
  rbind (py_float (VInt z)) int_of_float = Ok z.
Proof.
  intros Hz. unfold py_float, float_of_int, binary_normalize.
  destruct z as [|m|m]; [done | |].
  - pose proof (int_of_float_of_small false m (small_digits m ltac:(lia))) as H.
    destruct (binary_round prec emax false m 0); simpl in *; congruence.
  - pose proof (int_of_float_of_small true m (small_digits m ltac:(lia))) as H.
    destruct (binary_round prec emax true m 0); simpl in *; congruence.
Qed.

(** X20: in every record normalisation returns, a ['Number of trades'] that
    was an integer below [2^53] in magnitude is that same integer: going
    through [float] and back through [int] does not change it. *)
Theorem trade_count_survives df records i (row rec : gmap string value) z :
  prepare_data_for_mongodb df = Ok records ->
  df !! i = Some row -> records !! i = Some rec ->
  row !! "Number of trades" = Some (VInt z) ->
  (Z.abs z < 2 ^ 53)%Z ->
  rec !! "Number of trades" = Some (VInt z).
Proof.
  intros Hp Hrow Hrec Hv Hz. apply rmap_Forall2 in Hp.
  pose proof (Forall2_lookup_lr _ _ _ _ _ _ Hp Hrow Hrec) as H.
  unfold prepare_record in H. apply rbind_Ok in H as (rec1 & H1 & H2).
  destruct (fold_coerce_field _ _ _ _ _ numeric_fields_NoDup trades_is_numeric H1 Hv)
    as (v' & Hv' & Hl1).
  pose proof (int_float_round_trip z Hz) as Hrt.
  unfold float_coerced in Hv'. simpl pd_notna in Hv'. cbv iota in Hv'.
  destruct (py_float (VInt z)) as [f|e] eqn:Ef; [| discriminate].
  simpl in Hv', Hrt. injection Hv' as <-.
  apply (coerce_int_lookup _ _ _ "Number of trades") in H2 as (_ & H2 & _).
  destruct (H2 _ Hl1) as (v'' & Hv'' & Hl2). rewrite Hl2. f_equal.
  unfold int_coerced in Hv''.
  destruct f as [s| s | |s m e]; simpl in *; try discriminate; congruence.
Qed.

Lemma trade_count_survives_witness :
  (Z.abs 123456789 < 2 ^ 53)%Z /\
  ({[ "Number of trades" := VInt 123456789 ]} : gmap string value)
    !! "Number of trades" = Some (VInt 123456789).
Proof.
  split; [vm_compute; reflexivity |].
  apply (trade_count_survives
           [ {[ "Number of trades" := VInt 123456789 ]} ]
           [ {[ "Number of trades" := VInt 123456789 ]} ] 0
           {[ "Number of trades" := VInt 123456789 ]}
           {[ "Number of trades" := VInt 123456789 ]} 123456789);
    vm_compute; reflexivity.
Defined.

End TradeCountFacts.

(** ** Counting the records inserted *)

Module CountFacts.
Import Py PyLib Discovery Normalizer Loader NormalizerFacts BatchFacts.

Section Counting.
Context {W : Type} (drv : Collaborators W).
Hypothesis Haccepts : accepts_all drv.

Lemma insert_batch_accepted batch total s :
  collection s = true ->
  exists s', insert_batch drv batch total s = (Ok (total + len batch)%Z, s') /\
             collection s' = true.
Proof.
  intros Hc. unfold insert_batch, try_except, bind, on_collection, perform, ret.
  rewrite Hc. destruct (Haccepts batch false (world s)) as (res & w' & Hi & Hl).
  rewrite Hi. simpl. unfold len. rewrite Hl.
  eexists. split; reflexivity.
Qed.

Lemma insert_batches_accepted (records : list record) batch_size js :
  forall total s,
  collection s = true ->
  fst (insert_batches drv records batch_size js total s)
  = Ok (total + len (concat (map (fun j => py_slice records j (j + batch_size)) js)))%Z.
Proof.
  induction js as [|j js IH]; simpl; intros total s Hc.
  - unfold len. simpl. f_equal. lia.
  - unfold bind.
    destruct (insert_batch_accepted (py_slice records j (j + batch_size)) total s Hc)
      as (s' & Hb & Hc').
    rewrite Hb, (IH _ _ Hc'). f_equal. unfold len.
    rewrite length_app. lia.
Qed.

(** X21: with a driver that accepts every batch, reporting one inserted id
    per document, and a batch size of at least one, the insertion loop ends
    normally and adds the number of records to the total. *)
Theorem accepted_records_are_all_counted (records : list record) batch_size total s :
  collection s = true -> (1 <= batch_size)%Z ->
  fst (insert_records drv records batch_size total s)
  = Ok (total + len records)%Z.
Proof.
  intros Hc Hb. unfold insert_records, bind, lift.
  destruct (py_range 0 (len records) batch_size) as [js|e] eqn:Hr.
  - rewrite insert_batches_accepted by done. f_equal. f_equal.
    destruct records as [|r records].
    + unfold py_range in Hr. destruct (Z.eqb_spec batch_size 0); [lia |].
      destruct (Z.ltb_spec 0 batch_size); [| lia]. simpl in Hr.
      by injection Hr as <-.
    + destruct (batches_of_spec (r :: records) batch_size) as [_ Hcat];
        [done | done |].
      unfold batches_of in Hcat. rewrite Hr in Hcat. by rewrite Hcat.
  - unfold py_range in Hr. destruct (Z.eqb_spec batch_size 0); [lia | discriminate].
Qed.

End Counting.

Lemma accepting_accepts_all : accepts_all Examples.accepting.
Proof.
  intros batch ordered w. eexists _, w. split; [reflexivity |].
  simpl. by rewrite length_map, length_seq.
Defined.

Lemma accepted_records_are_all_counted_witness :
  (1 <= 2)%Z /\
  fst (insert_records Examples.accepting Examples.three_records 2 0
         {| world := tt; mongo_uri := Examples.uri; client := true;
            collection := true; calls := [] |}) = Ok 3%Z.
Proof.
  split; [lia |].
  rewrite (accepted_records_are_all_counted Examples.accepting
             accepting_accepts_all Examples.three_records 2 0);
    [reflexivity | reflexivity | lia].
Defined.

End CountFacts.
